(** * reviewer.py: conversation state, catalog, budgeting and orchestration

    A shallow embedding of [src/reviewer.py].  Python text is modelled by
    [string] (one [ascii] per character), the optional integer [file_limit]
    by [option Z], a [pathlib.Path] by the list of its components, and the
    project directory by a tree of files and directories.  The chat endpoint
    is an arbitrary function from the requests received so far to the outcome
    of the last one, so every statement below holds for every behaviour of the
    endpoint. *)

From Stdlib Require Import List String Ascii ZArith Lia Bool Arith.
From Stdlib Require Import Sorted Permutation DecimalString.
Import ListNotations.

Set Warnings "-register-all".

Open Scope string_scope.
Open Scope list_scope.
Open Scope nat_scope.

Infix "^^" := String.append (at level 60, right associativity).

(** ** Python text primitives used by the script *)

Module Py.

Definition nl : string := String (ascii_of_nat 10) EmptyString.

(** [str.lower] on the ASCII letters. *)
Definition lower_char (c : ascii) : ascii :=
  let n := nat_of_ascii c in
  if (65 <=? n) && (n <=? 90) then ascii_of_nat (n + 32) else c.

Fixpoint lower (s : string) : string :=
  match s with
  | EmptyString => EmptyString
  | String c r => String (lower_char c) (lower r)
  end.

(** [sub in s]. *)
Fixpoint contains (sub s : string) : bool :=
  String.prefix sub s
  || match s with
     | EmptyString => false
     | String _ r => contains sub r
     end.

(** [s.rfind(c)], with [None] for Python's [-1]. *)
Fixpoint rfind (c : ascii) (s : string) : option nat :=
  match s with
  | EmptyString => None
  | String a r =>
      match rfind c r with
      | Some i => Some (S i)
      | None => if Ascii.eqb a c then Some 0 else None
      end
  end.

(** [s[:n]]. *)
Definition take (n : nat) (s : string) : string := String.substring 0 n s.

(** [s[i:]]. *)
Definition drop (i : nat) (s : string) : string :=
  String.substring i (String.length s - i) s.

(** Characters removed by [str.strip()] (the ASCII ones). *)
Definition is_space (c : ascii) : bool :=
  let n := nat_of_ascii c in
  ((9 <=? n) && (n <=? 13)) || ((28 <=? n) && (n <=? 32)).

Fixpoint lstrip (s : string) : string :=
  match s with
  | EmptyString => EmptyString
  | String c r => if is_space c then lstrip r else s
  end.

Fixpoint rstrip (s : string) : string :=
  match s with
  | EmptyString => EmptyString
  | String c r =>
      match rstrip r with
      | EmptyString => if is_space c then EmptyString else String c EmptyString
      | r' => String c r'
      end
  end.

Definition strip (s : string) : string := rstrip (lstrip s).

(** [s.lstrip('.')]. *)
Fixpoint lstrip_dots (s : string) : string :=
  match s with
  | EmptyString => EmptyString
  | String c r => if Ascii.eqb c "."%char then lstrip_dots r else s
  end.

(** ["sep".join(parts)]. *)
Fixpoint join (sep : string) (parts : list string) : string :=
  match parts with
  | [] => EmptyString
  | [p] => p
  | p :: rest => p ^^ sep ^^ join sep rest
  end.

(** [str(n)] for a length and for an integer. *)
Definition str_of_nat (n : nat) : string :=
  NilEmpty.string_of_uint (Nat.to_uint n).

Definition str_of_int (z : Z) : string :=
  NilEmpty.string_of_int (Z.to_int z).

(** [xs[:k]] for an arbitrary Python integer [k]: a negative bound counts
    from the end. *)
Definition slice_to {A} (k : Z) (xs : list A) : list A :=
  if (0 <=? k)%Z then firstn (Z.to_nat k) xs
  else firstn (Z.to_nat (Z.of_nat (List.length xs) + k)) xs.

End Py.

(** ** Paths ([pathlib.Path]) *)

Definition path := list string.

Definition path_name (p : path) : string := last p EmptyString.

(** [Path.suffix]: the part of the name from its last dot, when that dot is
    neither the first nor the last character. *)
Definition path_suffix (p : path) : string :=
  let name := path_name p in
  match Py.rfind "."%char name with
  | Some i =>
      if (0 <? i) && (i <? String.length name - 1) then Py.drop i name
      else EmptyString
  | None => EmptyString
  end.

(** [Path.stem]: the name without its suffix. *)
Definition path_stem (p : path) : string :=
  let name := path_name p in
  match Py.rfind "."%char name with
  | Some i =>
      if (0 <? i) && (i <? String.length name - 1) then Py.take i name
      else name
  | None => name
  end.

(** [str(path)], for an absolute POSIX path. *)
Definition path_str (p : path) : string :=
  "/" ^^ Py.join "/" p.

Definition path_eqb (p q : path) : bool :=
  if list_eq_dec string_dec p q then true else false.

(** ** Settings *)

Definition ALLOWED_EXTENSIONS : list string :=
  [".py"; ".cpp"; ".h"; ".hpp"; ".c"; ".java"; ".js"; ".ts"; ".cs"; ".go"].

Definition EXCLUDED_DIRS : list string :=
  [".git"; ".idea"; ".vscode"; "__pycache__"; ".venv"; "build"].

Definition mem (s : string) (set : list string) : bool :=
  existsb (String.eqb s) set.

(** ** File budgeting (analyze_project, step 3, before the loop) *)

Definition important_patterns : list string := ["main"; "app"; "core"; "index"].

(** [any(pattern in f.stem.lower() for pattern in important_patterns)] *)
Definition is_important (f : path) : bool :=
  existsb (fun pattern => Py.contains pattern (Py.lower (path_stem f)))
          important_patterns.

(** Truth value of [file_limit]: [None] and [0] are false. *)
Definition truthy (file_limit : option Z) : bool :=
  match file_limit with
  | None => false
  | Some k => negb (k =? 0)%Z
  end.

(** Whether the [if file_limit and len(files) > file_limit] branch is taken. *)
Definition limiting (files : list path) (file_limit : option Z) : option Z :=
  match file_limit with
  | Some k =>
      if truthy file_limit && (Z.of_nat (List.length files) >? k)%Z
      then Some k else None
  | None => None
  end.

(** Lines 129-133 of analyze_project: the list [files] after the limiting
    step. *)
Definition budget (files : list path) (file_limit : option Z) : list path :=
  match limiting files file_limit with
  | Some k =>
      let important_files := filter is_important files in
      let other_files :=
        filter (fun f => negb (existsb (path_eqb f) important_files)) files in
      Py.slice_to k (important_files ++ other_files)
  | None => files
  end.

(** ** Content embedded in a review prompt *)

Definition MAX_CODE_CHARS : nat := 3000.

(** [file.read_text(...)[:3000]] *)
Definition clip (content : string) : string := Py.take MAX_CODE_CHARS content.

(** ** Literal texts of the script

    Box-drawing and pictograph characters are kept byte for byte as they are
    stored in the source file. *)

Module Text.

Definition BRANCH : string := "‚îú‚îÄ‚îÄ ".
Definition BAR : string := "‚îÇ   ".

Definition step1_plain : string :=
  Py.nl ^^ "üî∑ Step 1: Sending project description...".
Definition step1_rich : string :=
  Py.nl ^^ "[bold blue]Step 1:[/bold blue] Sending project description...".
Definition step2_plain : string :=
  Py.nl ^^ "üî∑ Step 2: Sending project folder structure...".
Definition step2_rich : string :=
  Py.nl ^^ "[bold blue]Step 2:[/bold blue] Analyzing project folder structure...".
Definition step4_plain : string :=
  Py.nl ^^ "üî∑ Step 4: Requesting final project-wide summary...".
Definition step4_rich : string :=
  Py.nl ^^ "[bold blue]Step 4:[/bold blue] Generating project-wide summary...".
Definition summary_plain : string :=
  Py.nl ^^ "üìã PROJECT SUMMARY:".
Definition summary_rich : string :=
  Py.nl ^^ "[bold yellow]üìã PROJECT SUMMARY:[/bold yellow]".
Definition magnifier : string := "üîç".
Definition diamond : string := "üî∑".

Definition README_missing : string := "README.md not found.".
Definition read_placeholder : string := "# Error reading file content".

End Text.

(** ** The project directory *)

(** What reading a file gives: its text, or the error raised instead. *)
Inductive file_content :=
| Text_of (text : string)
| Unreadable (error : string).

(** A directory entry; the entries of a directory are listed in the order
    the operating system returns them. *)
Inductive node :=
| File (name : string) (content : file_content)
| Dir (name : string) (entries : list node).

Definition node_name (n : node) : string :=
  match n with
  | File name _ => name
  | Dir name _ => name
  end.

Definition is_dir (n : node) : bool :=
  match n with
  | Dir _ _ => true
  | File _ _ => false
  end.

(** The entry a path leads to, from the node [n]. *)
Fixpoint resolve (p : path) (n : node) : option node :=
  match p with
  | [] => Some n
  | c :: p' =>
      match n with
      | Dir _ entries =>
          match find (fun e => String.eqb (node_name e) c) entries with
          | Some e => resolve p' e
          | None => None
          end
      | File _ _ => None
      end
  end.

(** [sorted(path.iterdir())]: siblings compare by their names, character by
    character as on a POSIX system; the sort is stable. *)
Fixpoint insert_by_name (x : node) (l : list node) : list node :=
  match l with
  | [] => [x]
  | y :: r =>
      if String.leb (node_name x) (node_name y) then x :: l
      else y :: insert_by_name x r
  end.

Definition sorted (l : list node) : list node :=
  fold_right insert_by_name [] l.

(** Nesting depth of directories, the number of recursive calls
    [generate_project_tree] needs. *)
Fixpoint height (n : node) : nat :=
  match n with
  | File _ _ => 0
  | Dir _ entries => S (list_max (map height entries))
  end.

Definition entries_height (entries : list node) : nat :=
  S (list_max (map height entries)).

(** ** Source catalog *)

(** The lines one item of the loop of [generate_project_tree] appends, given
    the rendering [sub] of the recursive call. *)
Definition item_lines (sub : list node -> string -> string)
    (indent : string) (item : node) : list string :=
  if mem (node_name item) EXCLUDED_DIRS then []
  else
    (indent ^^ Text.BRANCH ^^ node_name item)
    :: match item with
       | Dir _ entries => [sub entries (indent ^^ Text.BAR)]
       | File _ _ => []
       end.

(** [generate_project_tree] on the entries of [path], with a bound on the
    depth of the recursion. *)
Fixpoint generate_project_tree_fuel (fuel : nat) (entries : list node)
    (indent : string) : string :=
  match fuel with
  | 0 => EmptyString
  | S fuel' =>
      Py.join Py.nl
        (flat_map (item_lines (generate_project_tree_fuel fuel') indent)
                  (sorted entries))
  end.

Definition generate_project_tree (entries : list node) (indent : string)
    : string :=
  generate_project_tree_fuel (entries_height entries) entries indent.

(** [filepath.suffix.lower() in ALLOWED_EXTENSIONS] *)
Definition allowed (filepath : path) : bool :=
  mem (Py.lower (path_suffix filepath)) ALLOWED_EXTENSIONS.

(** The files [os.walk] reports for one directory, as [Path(root) / filename],
    kept when the extension is allowed. *)
Definition files_of (root : path) (entries : list node) : list path :=
  flat_map (fun e =>
              match e with
              | File filename _ =>
                  if allowed (root ++ [filename]) then [root ++ [filename]]
                  else []
              | Dir _ _ => []
              end) entries.

(** [os.walk(path)] with the pruning [dirs[:] = ...]: the files of the
    directory [n] found at [root], then those of each sub-directory that is
    not excluded, in listing order. *)
Fixpoint walk (root : path) (n : node) : list path :=
  match n with
  | File _ _ => []
  | Dir _ entries =>
      files_of root entries
      ++ flat_map (fun d =>
                     match d with
                     | Dir name _ =>
                         if mem name EXCLUDED_DIRS then []
                         else walk (root ++ [name]) d
                     | File _ _ => []
                     end) entries
  end.

Definition collect_source_files (top : path) (n : node) : list path :=
  walk top n.

(** ** Chat state *)

Inductive role := user | assistant.

Record Turn := { turn_role : role; content : string }.

Definition Transcript := list Turn.

(** What [requests.post] followed by [raise_for_status] and [json] gives. *)
Inductive post_outcome :=
| Replied (message : option (option string))
    (* the JSON body: the "message" key, and in it the "content" key *)
| RequestFailed (e : string)
    (* requests.exceptions.RequestException *)
| Broke (e : string).
    (* any other exception *)

(** What the program does that can be seen from outside. *)
Inductive event :=
| Print (text : string)
| ConsolePrint (text : string)
| ProgressAdd (description : string) (total : nat)
| ProgressDescription (description : string)
| ProgressAdvance
| Post (messages : Transcript).

(** The global [chat_history] and the events so far. *)
Record State := { chat_history : Transcript; trace : list event }.

Definition initial : State := {| chat_history := []; trace := [] |}.

Fixpoint posts (tr : list event) : list Transcript :=
  match tr with
  | [] => []
  | Post messages :: r => messages :: posts r
  | _ :: r => posts r
  end.

(** ** Computations that change the state and may raise *)

Inductive result (A : Type) :=
| Ok (a : A)
| Raise (e : string).

Arguments Ok {A} a.
Arguments Raise {A} e.

Definition M (A : Type) : Type := State -> State * result A.

Definition ret {A} (a : A) : M A := fun st => (st, Ok a).

Definition bind {A B} (m : M A) (f : A -> M B) : M B :=
  fun st =>
    match m st with
    | (st', Ok a) => f a st'
    | (st', Raise e) => (st', Raise e)
    end.

Definition raise {A} (e : string) : M A := fun st => (st, Raise e).

(** [try: m except Exception as e: handler e] *)
Definition catch {A} (m : M A) (handler : string -> M A) : M A :=
  fun st =>
    match m st with
    | (st', Raise e) => handler e st'
    | r => r
    end.

Declare Scope m_scope.
Delimit Scope m_scope with m.
Notation "x <- m1 ;; m2" := (bind m1 (fun x => m2))
  (at level 61, m1 at next level, right associativity) : m_scope.
Notation "m1 ;; m2" := (bind m1 (fun _ => m2))
  (at level 61, right associativity) : m_scope.

Definition emit (e : event) : M unit :=
  fun st =>
    ({| chat_history := chat_history st; trace := trace st ++ [e] |}, Ok tt).

Definition append_history (t : Turn) : M unit :=
  fun st =>
    ({| chat_history := chat_history st ++ [t]; trace := trace st |}, Ok tt).

(** [chat_history.clear()] *)
Definition clear : M unit :=
  fun st => ({| chat_history := []; trace := trace st |}, Ok tt).

Fixpoint for_each {A} (xs : list A) (body : A -> M unit) : M unit :=
  match xs with
  | [] => ret tt
  | x :: r => bind (body x) (fun _ => for_each r body)
  end.

Definition exit_status {A} (r : result A) : Z :=
  match r with
  | Ok _ => 0%Z
  | Raise _ => 1%Z
  end.

(** ** The script, for a given chat endpoint and file system *)

Section Reviewer.

(** The endpoint: from every request body received so far (the last one being
    the current request) to the outcome of the current request. *)
Variable server : list Transcript -> post_outcome.

(** The root directory of the file system. *)
Variable fs : node.

(** Whether the import of [rich] succeeded. *)
Variable rich_available : bool.

(** What [console.print] of [rich] raises for a text, if anything: the
    message of its [MarkupError], raised when the text holds a closing tag
    such as [/x] that closes nothing.  The literal texts of the script are
    well-formed and take no part in this. *)
Variable markup_error : string -> option string.

(** [requests.post(OLLAMA_URL, json={..., "messages": chat_history, ...})],
    [raise_for_status()] and [json()]. *)
Definition post : M post_outcome :=
  fun st =>
    let tr := trace st ++ [Post (chat_history st)] in
    ({| chat_history := chat_history st; trace := tr |}, Ok (server (posts tr))).

Definition call_ollama_chat (user_prompt : string) : M string :=
  (append_history {| turn_role := user; content := user_prompt |} ;;
   outcome <- post ;;
   match outcome with
   | Replied message =>
       let assistant_message :=
         Py.strip match message with
                  | Some (Some c) => c
                  | _ => EmptyString
                  end in
       append_history {| turn_role := assistant; content := assistant_message |} ;;
       ret assistant_message
   | RequestFailed e =>
       ret ("[Error communicating with Ollama: " ^^ e ^^ "]")
   | Broke e => raise e
   end)%m.

(** Reading a file's text: the text, or the error raised. *)
Definition read_text (file : path) : string + string :=
  match resolve file fs with
  | Some (File _ (Text_of s)) => inl s
  | Some (File _ (Unreadable e)) => inr e
  | Some (Dir _ _) => inr "Is a directory"
  | None => inr "No such file or directory"
  end.

(** [with open(p, "r") as f: f.read().strip()] *)
Definition read_stripped (p : path) : M string :=
  match read_text p with
  | inl s => ret (Py.strip s)
  | inr e => raise e
  end.

(** [console.print(text)] for a text that holds data of the run. *)
Definition console_print (text : string) : M unit :=
  match markup_error text with
  | Some e => raise e
  | None => emit (ConsolePrint text)
  end.

(** [console.print(x) if console else print(x)] *)
Definition say (text : string) : M unit :=
  if rich_available then console_print text else emit (Print text).

Definition description_prompt (project_description project_readme : string)
    : string :=
  "This is a description of the project:" ^^ Py.nl ^^ Py.nl
  ^^ project_description ^^ Py.nl ^^ Py.nl
  ^^ "This is the provided README.md file:" ^^ Py.nl ^^ Py.nl
  ^^ project_readme ^^ Py.nl ^^ Py.nl
  ^^ "Use this to understand its purpose.".

Definition tree_prompt (tree_str : string) : string :=
  "Here is the project's folder structure:" ^^ Py.nl ^^ Py.nl
  ^^ tree_str ^^ Py.nl ^^ Py.nl
  ^^ "Comment on any organization or architecture issues.".

(** The review request; [pad] is the indentation of the continuation lines of
    the literal (20 spaces in the [rich] branch, 16 in the other). *)
Definition review_prompt (pad : string) (file : path) (ext code : string)
    : string :=
  "You are a senior code reviewer. Please review the following file for:"
  ^^ Py.nl ^^ pad ^^ "- Bugs"
  ^^ Py.nl ^^ pad ^^ "- Security issues"
  ^^ Py.nl ^^ pad ^^ "- Logic errors"
  ^^ Py.nl ^^ pad ^^ "- Style issues"
  ^^ Py.nl ^^ pad ^^ "- Maintainability"
  ^^ Py.nl ^^ pad ^^ "File: " ^^ path_str file
  ^^ " Code:```" ^^ ext ^^ Py.nl ^^ code ^^ "```".

Definition pad_rich : string := "                    ".
Definition pad_plain : string := "                ".

Definition summary_prompt : string :=
  "Based on your previous reviews of each file/files that were provided in previous prompts provided, provide a detailed project-wide summary. Please include:"
  ^^ Py.nl ^^ "           1. Any critical bugs"
  ^^ Py.nl ^^ "           2. Potential security issues"
  ^^ Py.nl ^^ "           3. Overall architectural problems"
  ^^ Py.nl ^^ "           4. Logic or flow issues"
  ^^ Py.nl ^^ "           5. Best practice violations"
  ^^ Py.nl ^^ "           Avoid repeating raw code. Be concise and actionable."
  ^^ Py.nl.

(** The inner [try] of the loop: the clipped text of the file, or the
    placeholder after a read error. *)
Definition read_code (file : path) : M string :=
  match read_text file with
  | inl s => ret (clip s)
  | inr read_error =>
      (emit (Print ("Error reading " ^^ path_str file ^^ ": " ^^ read_error)) ;;
       ret Text.read_placeholder)%m
  end.

(** [str(file.relative_to(project_path))] *)
Definition relative_str (project_path file : path) : string :=
  Py.join "/" (skipn (List.length project_path) file).

(** One iteration of the loop of step 3 in the [rich] branch.  The live
    progress display is represented by the updates it is given. *)
Definition review_rich (project_path file : path) : M unit :=
  catch
    (let file_relative := relative_str project_path file in
     emit (ProgressDescription file_relative) ;;
     code <- read_code file ;;
     let ext := Py.lstrip_dots (path_suffix file) in
     response <- call_ollama_chat (review_prompt pad_rich file ext code) ;;
     console_print (Py.nl ^^ "[bold green]" ^^ Text.magnifier
                    ^^ " Review for " ^^ file_relative ^^ ":[/bold green]") ;;
     console_print response ;;
     emit ProgressAdvance)%m
    (fun e =>
       console_print ("[bold red]ERROR:[/bold red] " ^^ path_str file
                      ^^ ": " ^^ e) ;;
       emit ProgressAdvance)%m.

(** One iteration of the loop of step 3 in the other branch. *)
Definition review_plain (total : nat) (numbered : nat * path) : M unit :=
  let (i, file) := numbered in
  (emit (Print (Py.nl ^^ Text.magnifier ^^ " Reviewing file " ^^ Py.str_of_nat i
                ^^ "/" ^^ Py.str_of_nat total ^^ ": " ^^ path_str file)) ;;
   catch
     (code <- read_code file ;;
      let ext := Py.lstrip_dots (path_suffix file) in
      response <- call_ollama_chat (review_prompt pad_plain file ext code) ;;
      emit (Print response))
     (fun e => emit (Print ("[ERROR] Skipping " ^^ path_str file ^^ ": " ^^ e))))%m.

(** Step 3 after the limiting: the reviews of [files]. *)
Definition review_files (project_path : path) (files : list path) : M unit :=
  let total := List.length files in
  if rich_available then
    (emit (ConsolePrint (Py.nl ^^ "[bold blue]Step 3:[/bold blue] Reviewing "
                         ^^ Py.str_of_nat total ^^ " source files...")) ;;
     emit (ProgressAdd "Reviewing files" total) ;;
     for_each files (review_rich project_path))%m
  else
    (emit (Print (Py.nl ^^ Text.diamond ^^ " Reviewing " ^^ Py.str_of_nat total
                  ^^ " source files...")) ;;
     for_each (combine (seq 1 total) files) (review_plain total))%m.

(** [analyze_project].  The lines [collect_source_files] prints while it
    searches are not recorded in the trace. *)
Definition analyze_project (project_dir : path) (project_description : string)
    (file_limit : option Z) : M unit :=
  (emit (Print (Py.nl ^^ "Analyzing project: " ^^ path_str project_dir)) ;;
   match resolve project_dir fs with
   | Some (Dir name entries) =>
       let project_path := Dir name entries in
       project_readme <-
         match resolve (project_dir ++ ["README.md"]) fs with
         | Some _ => read_stripped (project_dir ++ ["README.md"])
         | None => ret Text.README_missing
         end ;;
       emit (Print ("Project description: " ^^ project_description)) ;;
       emit (Print ("Project README: " ^^ project_readme)) ;;
       (* Step 1: project description *)
       emit (if rich_available then ConsolePrint Text.step1_rich
             else Print Text.step1_plain) ;;
       response <- call_ollama_chat
                     (description_prompt project_description project_readme) ;;
       say response ;;
       (* Step 2: project structure *)
       emit (if rich_available then ConsolePrint Text.step2_rich
             else Print Text.step2_plain) ;;
       let tree_str := generate_project_tree entries EmptyString in
       emit (Print tree_str) ;;
       response <- call_ollama_chat (tree_prompt tree_str) ;;
       say response ;;
       (* Step 3: file review *)
       let files := collect_source_files project_dir project_path in
       match limiting files file_limit with
       | Some k =>
           emit (if rich_available
                 then ConsolePrint ("[yellow]Limiting to " ^^ Py.str_of_int k
                                    ^^ " files[/yellow]")
                 else Print ("Limiting to " ^^ Py.str_of_int k ^^ " files"))
       | None => ret tt
       end ;;
       review_files project_dir (budget files file_limit) ;;
       (* Step 4: summary *)
       emit (if rich_available then ConsolePrint Text.step4_rich
             else Print Text.step4_plain) ;;
       response <- call_ollama_chat summary_prompt ;;
       emit (if rich_available then ConsolePrint Text.summary_rich
             else Print Text.summary_plain) ;;
       say response ;;
       clear
   | _ =>
       emit (Print ("[Error] Path does not exist or is not a directory: "
                    ^^ path_str project_dir))
   end)%m.

Definition DEFAULT_DIR : path :=
  ["C:\Users\aleks\Desktop\Python Projects\Visualization"].

(** The [__main__] block, from the parsed arguments. *)
Definition main (dir : option path) (description : option string)
    (limit : option Z) : M unit :=
  let project_dir :=
    match dir with
    | Some d => d
    | None => DEFAULT_DIR
    end in
  let project_description :=
    match description with
    | Some EmptyString | None => "This is an app"
    | Some d => d
    end in
  (project_description <-
     match resolve (project_dir ++ ["description.txt"]) fs with
     | Some _ => read_stripped (project_dir ++ ["description.txt"])
     | None => ret project_description
     end ;;
   analyze_project project_dir project_description limit)%m.

(** [n] calls of [call_ollama_chat] in a row, whatever each one returns or
    raises. *)
Fixpoint submit_all (prompts : list string) (st : State) : State :=
  match prompts with
  | [] => st
  | p :: r => submit_all r (fst (call_ollama_chat p st))
  end.

End Reviewer.

(** * Notions used in the statements *)

(** The list that is cut: the important files, then the others, each group in
    the order of the input. *)
Definition prioritized (files : list path) : list path :=
  filter is_important files ++ filter (fun f => negb (is_important f)) files.

(** Every assistant turn of the transcript [h] directly follows a user turn,
    and the transcript up to and including that user turn is a request that
    was sent to the endpoint (the request that elicited the reply). *)
Definition paired (h : Transcript) (tr : list event) : Prop :=
  forall i a,
    nth_error h i = Some a -> turn_role a = assistant ->
    exists j u,
      i = S j /\ nth_error h j = Some u /\ turn_role u = user
      /\ In (Post (firstn i h)) tr.

Definition well_formed (st : State) : Prop :=
  paired (chat_history st) (trace st).

(** A computation that returns normally from every state, after sending [n]
    requests. *)
Definition runs {A} (m : M A) (n : nat) : Prop :=
  forall st, exists st' a,
    m st = (st', Ok a)
    /\ List.length (posts (trace st')) = List.length (posts (trace st)) + n.

(** [os.path.isdir] *)
Definition isdir (fs : node) (p : path) : bool :=
  match resolve p fs with
  | Some n => is_dir n
  | None => false
  end.

(** An entry with a name of the exclusion set, among the directories when
    [dirs] is set and among the regular files when [files] is set. *)
Definition dropped (dirs files : bool) (e : node) : bool :=
  mem (node_name e) EXCLUDED_DIRS && (if is_dir e then dirs else files).

(** The tree without the dropped entries, at every depth. *)
Fixpoint prune (dirs files : bool) (n : node) : node :=
  match n with
  | File _ _ => n
  | Dir name entries =>
      Dir name (filter (fun e => negb (dropped dirs files e))
                       (map (prune dirs files) entries))
  end.

Definition prune_entries (dirs files : bool) (entries : list node)
    : list node :=
  filter (fun e => negb (dropped dirs files e)) (map (prune dirs files) entries).

(** Whether some directory of the tree, at any depth below [n], has an
    excluded name. *)
Fixpoint has_excluded_dir (n : node) : bool :=
  match n with
  | File _ _ => false
  | Dir _ entries =>
      existsb (fun e => (is_dir e && mem (node_name e) EXCLUDED_DIRS)
                        || has_excluded_dir e) entries
  end.

(** Siblings in the order of [sorted]. *)
Definition name_le (x y : node) : Prop :=
  String.leb (node_name x) (node_name y) = true.

(** The directory [m] lies below [n] along the directory names [rel]. *)
Inductive below : node -> list string -> node -> Prop :=
| below_here (n : node) : below n [] n
| below_step (name : string) (entries : list node) (d : node)
    (rel : list string) (m : node) :
    In d entries -> is_dir d = true -> below d rel m ->
    below (Dir name entries) (node_name d :: rel) m.

(** No two entries of a directory share a name, at every depth. *)
Fixpoint distinct (names : list string) : bool :=
  match names with
  | [] => true
  | x :: r => negb (mem x r) && distinct r
  end.

Fixpoint unique_names (n : node) : bool :=
  match n with
  | File _ _ => true
  | Dir _ entries =>
      distinct (map node_name entries) && forallb unique_names entries
  end.

(** The contents of the user turns of a transcript, in order. *)
Definition is_user (t : Turn) : bool :=
  match turn_role t with
  | user => true
  | assistant => false
  end.

Definition user_contents (h : Transcript) : list string :=
  map content (filter is_user h).

(** A computation that leaves the transcript empty whenever it returns. *)
Definition clears {A} (m : M A) : Prop :=
  forall st st' a, m st = (st', Ok a) -> chat_history st' = [].

(** From every state satisfying [P], the computation [m] reaches a state
    satisfying [Q] when it returns, and one satisfying [E] when it raises. *)
Definition hoare {A} (P : State -> Prop) (m : M A)
    (Q : A -> State -> Prop) (E : State -> Prop) : Prop :=
  forall st, P st ->
             match m st with
             | (st', Ok a) => Q a st'
             | (st', Raise _) => E st'
             end.

(** The non-empty initial segments of a list of prompts, shortest first. *)
Definition prefixes (ps : list string) : list (list string) :=
  map (fun k => firstn k ps) (seq 1 (List.length ps)).

(** Since a state whose transcript held the user turns [u0] and whose
    requests held the user turns [q0], the prompts [ps] were submitted: they
    are the new user turns, and the new requests hold one more of them each. *)
Definition heard (u0 : list string) (q0 : list (list string))
    (ps : list string) (st : State) : Prop :=
  user_contents (chat_history st) = u0 ++ ps
  /\ map user_contents (posts (trace st))
     = q0 ++ map (app u0) (prefixes ps).

(** The text embedded for a file: its clipped text, or the placeholder when
    reading it raises. *)
Definition code_for (fs : node) (file : path) : string :=
  match read_text fs file with
  | inl s => clip s
  | inr _ => Text.read_placeholder
  end.

(** The review request of a file, in either branch of the loop. *)
Definition review_request (fs : node) (rich : bool) (file : path) : string :=
  review_prompt (if rich then pad_rich else pad_plain) file
                (Py.lstrip_dots (path_suffix file)) (code_for fs file).

(** The prompts of the four stages, in order. *)
Definition stage_prompts (fs : node) (rich : bool)
    (description readme : string) (entries : list node) (files : list path)
    : list string :=
  description_prompt description readme
  :: tree_prompt (generate_project_tree entries EmptyString)
  :: map (review_request fs rich) files ++ [summary_prompt].

(** The first and the last character of a text. *)
Definition first_char (s : string) : option ascii :=
  match s with
  | EmptyString => None
  | String c _ => Some c
  end.

Fixpoint last_char (s : string) : option ascii :=
  match s with
  | EmptyString => None
  | String c EmptyString => Some c
  | String _ r => last_char r
  end.

(** * Properties *)

(** ** Budgeting *)

Lemma path_eqb_eq (p q : path) : path_eqb p q = true <-> p = q.
Proof.
  unfold path_eqb. destruct (list_eq_dec string_dec p q); split; congruence.
Qed.

(** [f not in important_files] is the negation of the importance test, for
    the files of the list. *)
Lemma not_in_important (files : list path) (f : path) :
  existsb (path_eqb f) (filter is_important files)
  = is_important f && existsb (path_eqb f) files.
Proof.
  induction files as [|g files IH]; simpl.
  - now rewrite andb_false_r.
  - destruct (is_important g) eqn:Hg; simpl; rewrite IH.
    + destruct (path_eqb f g) eqn:E; simpl.
      * apply path_eqb_eq in E. subst g. rewrite Hg. reflexivity.
      * reflexivity.
    + destruct (path_eqb f g) eqn:E; simpl.
      * apply path_eqb_eq in E. subst g. rewrite Hg. reflexivity.
      * reflexivity.
Qed.

Lemma other_files_filter (files : list path) :
  filter (fun f => negb (existsb (path_eqb f) (filter is_important files))) files
  = filter (fun f => negb (is_important f)) files.
Proof.
  apply filter_ext_in. intros f Hf.
  rewrite not_in_important.
  assert (E : existsb (path_eqb f) files = true).
  { apply existsb_exists. exists f. split; [assumption | now apply path_eqb_eq]. }
  rewrite E, andb_true_r. reflexivity.
Qed.

Lemma prioritized_length (files : list path) :
  List.length (prioritized files) = List.length files.
Proof.
  unfold prioritized. rewrite length_app.
  induction files as [|f files IH]; simpl; [reflexivity|].
  destruct (is_important f); simpl; lia.
Qed.

Lemma budget_limited (files : list path) (k : Z) :
  (k <> 0)%Z -> (k < Z.of_nat (List.length files))%Z ->
  budget files (Some k) = Py.slice_to k (prioritized files).
Proof.
  intros Hk Hlt. unfold budget, limiting, truthy.
  destruct (Z.eqb_spec k 0); [contradiction|]. simpl.
  destruct (Z.gtb_spec (Z.of_nat (List.length files)) k); [|lia].
  now rewrite other_files_filter.
Qed.

Lemma budget_unlimited (files : list path) (file_limit : option Z) :
  limiting files file_limit = None -> budget files file_limit = files.
Proof. unfold budget. now intros ->. Qed.

Lemma filter_all {A} (P : A -> bool) (l : list A) :
  Forall (fun x => P x = true) l -> filter P l = l.
Proof.
  induction 1 as [|x l Hx _ IH]; simpl; [reflexivity|].
  now rewrite Hx, IH.
Qed.

Lemma filter_none {A} (P : A -> bool) (l : list A) :
  Forall (fun x => P x = false) l -> filter P l = [].
Proof.
  induction 1 as [|x l Hx _ IH]; simpl; [reflexivity|].
  now rewrite Hx, IH.
Qed.

Lemma Forall_firstn {A} (Q : A -> Prop) (n : nat) (l : list A) :
  Forall Q l -> Forall Q (firstn n l).
Proof.
  intros H. revert n. induction H; intros [|n]; simpl; constructor; auto.
Qed.

Section Cut.

Context {A : Type} (P : A -> bool).

(** In a cut of [yes ++ no], an element of [yes] never follows one of [no]. *)
Lemma cut_order (n : nat) (yes no : list A) (i j : nat) (x y : A) :
  Forall (fun a => P a = true) yes ->
  Forall (fun a => P a = false) no ->
  i < j ->
  nth_error (firstn n (yes ++ no)) i = Some x ->
  nth_error (firstn n (yes ++ no)) j = Some y ->
  P y = true -> P x = true.
Proof.
  intros Hyes Hno Hij Hx Hy Py.
  rewrite nth_error_firstn in Hx, Hy.
  destruct (Nat.ltb_spec i n); [|discriminate].
  destruct (Nat.ltb_spec j n); [|discriminate].
  destruct (Nat.lt_ge_cases j (List.length yes)) as [Hj|Hj].
  - rewrite nth_error_app1 in Hx by lia.
    apply nth_error_In in Hx.
    rewrite Forall_forall in Hyes. now apply Hyes.
  - rewrite nth_error_app2 in Hy by lia.
    apply nth_error_In in Hy.
    rewrite Forall_forall in Hno. apply Hno in Hy. congruence.
Qed.

Lemma cut_yes (n : nat) (yes no : list A) :
  Forall (fun a => P a = true) yes ->
  Forall (fun a => P a = false) no ->
  filter P (firstn n (yes ++ no)) = firstn n yes.
Proof.
  intros Hyes Hno. rewrite firstn_app, filter_app.
  rewrite (filter_all P (firstn n yes)) by now apply Forall_firstn.
  rewrite (filter_none P (firstn _ no)) by now apply Forall_firstn.
  apply app_nil_r.
Qed.

Lemma cut_no (n : nat) (yes no : list A) :
  Forall (fun a => P a = true) yes ->
  Forall (fun a => P a = false) no ->
  filter (fun a => negb (P a)) (firstn n (yes ++ no))
  = firstn (n - List.length yes) no.
Proof.
  intros Hyes Hno. rewrite firstn_app, filter_app.
  rewrite (filter_none _ (firstn n yes)).
  - rewrite filter_all; [reflexivity|].
    apply Forall_firstn. eapply Forall_impl; [|exact Hno].
    simpl. now intros a ->.
  - apply Forall_firstn. eapply Forall_impl; [|exact Hyes].
    simpl. now intros a ->.
Qed.

Lemma filter_Forall (l : list A) : Forall (fun a => P a = true) (filter P l).
Proof.
  apply Forall_forall. intros a Ha. now apply filter_In in Ha.
Qed.

End Cut.

(** C4: with no limit, or with a limit the list is already within (its own
    length included), the budgeted list is the input list itself. *)
Theorem budget_noop (files : list path) :
  budget files None = files
  /\ budget files (Some (Z.of_nat (List.length files))) = files
  /\ forall k : Z, (Z.of_nat (List.length files) <= k)%Z ->
                   budget files (Some k) = files.
Proof.
  assert (H : forall k : Z, (Z.of_nat (List.length files) <= k)%Z ->
                            budget files (Some k) = files).
  { intros k Hk. apply budget_unlimited. unfold limiting.
    destruct (Z.gtb_spec (Z.of_nat (List.length files)) k); [lia|].
    now rewrite andb_false_r. }
  split; [reflexivity|]. split; [apply H; lia | exact H].
Qed.

Lemma budget_noop_witness :
  (Z.of_nat (List.length [["a.py"]; ["main.py"]]) <= 5)%Z
  /\ budget [["a.py"]; ["main.py"]] (Some 5%Z) = [["a.py"]; ["main.py"]].
Proof.
  split; [simpl; lia|].
  apply (budget_noop [["a.py"]; ["main.py"]]). simpl; lia.
Defined.

(** C3 as stated fails for the limit 0, which the script treats as no limit:
    the list is returned whole and unordered. *)
Lemma budget_zero_limit_counterexample :
  let files := [["util.py"]; ["main.py"]] in
  (0 < Z.of_nat (List.length files))%Z
  /\ budget files (Some 0%Z) = [["util.py"]; ["main.py"]]
  /\ is_important ["util.py"] = false
  /\ is_important ["main.py"] = true
  /\ ~ (Z.of_nat (List.length (budget files (Some 0%Z))) <= 0)%Z.
Proof. simpl. repeat split; lia. Qed.

(** A negative limit cuts from the end, as Python slices do. *)
Example budget_negative_limit :
  budget [["util.py"]; ["main.py"]; ["x.py"]] (Some (-1)%Z)
  = [["main.py"]; ["util.py"]].
Proof. reflexivity. Qed.

(** C3, amended: a limit of 0 counts as no limit and the list is returned
    unchanged; for a limit [k] with [0 < k < len(files)], at most [k] files
    are returned, no file without an importance marker in its lower-cased stem
    precedes one with a marker, and the returned files of each kind are the
    first ones of that kind in the input, in the input's order. *)
Theorem budget_priority_order (files : list path) (k : Z) :
  budget files (Some 0%Z) = files
  /\ ((0 < k < Z.of_nat (List.length files))%Z ->
      let kept := budget files (Some k) in
      (Z.of_nat (List.length kept) <= k)%Z
      /\ (forall i j x y,
            i < j -> nth_error kept i = Some x -> nth_error kept j = Some y ->
            is_important y = true -> is_important x = true)
      /\ filter is_important kept
         = firstn (Z.to_nat k) (filter is_important files)
      /\ filter (fun f => negb (is_important f)) kept
         = firstn (Z.to_nat k - List.length (filter is_important files))
                  (filter (fun f => negb (is_important f)) files)).
Proof.
  split; [reflexivity|].
  intros Hk kept. subst kept.
  rewrite budget_limited by lia.
  unfold Py.slice_to. destruct (Z.leb_spec 0 k); [|lia].
  assert (Hyes : Forall (fun a => is_important a = true)
                        (filter is_important files))
    by apply filter_Forall.
  assert (Hno : Forall (fun a => is_important a = false)
                       (filter (fun f => negb (is_important f)) files)).
  { eapply Forall_impl; [|apply filter_Forall]. simpl.
    intros a Ha. now apply negb_true_iff. }
  unfold prioritized. repeat split.
  - pose proof (firstn_le_length (Z.to_nat k)
                  (filter is_important files
                   ++ filter (fun f => negb (is_important f)) files)).
    lia.
  - intros i j x y. now apply cut_order.
  - now apply cut_yes.
  - now apply cut_no.
Qed.

Lemma budget_priority_order_witness :
  let files := [["util.py"]; ["main.py"]; ["x.py"]; ["MyApp.js"]] in
  (0 < 3 < Z.of_nat (List.length files))%Z
  /\ budget files (Some 3%Z) = [["main.py"]; ["MyApp.js"]; ["util.py"]]
  /\ (Z.of_nat (List.length (budget files (Some 3%Z))) <= 3)%Z.
Proof.
  simpl. split; [lia|]. split; [reflexivity|].
  apply (proj2 (budget_priority_order
                  [["util.py"]; ["main.py"]; ["x.py"]; ["MyApp.js"]] 3)).
  simpl; lia.
Defined.

(** ** The conversation *)

Lemma posts_app (a b : list event) : posts (a ++ b) = posts a ++ posts b.
Proof.
  induction a as [|e a IH]; simpl; [reflexivity|].
  destruct e; simpl; now rewrite IH.
Qed.

Section Conversation.

Variable server : list Transcript -> post_outcome.

(** [call_ollama_chat] step by step: the user turn is appended, the whole
    transcript is sent, and the outcome decides the rest. *)
Lemma call_ollama_chat_unfold (p : string) (st : State) :
  call_ollama_chat server p st =
  let h := chat_history st ++ [{| turn_role := user; content := p |}] in
  let tr := trace st ++ [Post h] in
  match server (posts (trace st) ++ [h]) with
  | Replied message =>
      let a := Py.strip match message with
                        | Some (Some c) => c
                        | _ => EmptyString
                        end in
      ({| chat_history := h ++ [{| turn_role := assistant; content := a |}];
          trace := tr |}, Ok a)
  | RequestFailed e =>
      ({| chat_history := h; trace := tr |},
       Ok ("[Error communicating with Ollama: " ^^ e ^^ "]"))
  | Broke e => ({| chat_history := h; trace := tr |}, Raise e)
  end.
Proof.
  unfold call_ollama_chat, bind, append_history, post, ret, raise. simpl.
  rewrite posts_app. simpl.
  destruct (server _); reflexivity.
Qed.

(** Whatever the outcome, a call appends the user turn and at most one more
    turn, and sends exactly one request. *)
Lemma call_ollama_chat_grows (p : string) (st : State) :
  exists more,
    chat_history (fst (call_ollama_chat server p st))
    = chat_history st ++ {| turn_role := user; content := p |} :: more
    /\ List.length more <= 1
    /\ trace (fst (call_ollama_chat server p st))
       = trace st
         ++ [Post (chat_history st ++ [{| turn_role := user; content := p |}])].
Proof.
  rewrite call_ollama_chat_unfold. simpl.
  destruct (server _); simpl.
  - eexists [_]. rewrite <- app_assoc. simpl. auto.
  - exists []. auto.
  - exists []. auto.
Qed.

Lemma paired_user (h : Transcript) (tr extra : list event) (u : Turn) :
  turn_role u = user -> paired h tr -> paired (h ++ [u]) (tr ++ extra).
Proof.
  intros Hu Hp i a Hi Ha.
  destruct (Nat.lt_ge_cases i (List.length h)) as [Hlt|Hge].
  - rewrite nth_error_app1 in Hi by assumption.
    destruct (Hp i a Hi Ha) as (j & v & -> & Hj & Hv & Hin).
    exists j, v. repeat split; try assumption.
    + rewrite nth_error_app1 by lia. assumption.
    + apply in_or_app. left.
      rewrite firstn_app.
      replace (S j - List.length h) with 0 by lia.
      simpl. now rewrite app_nil_r.
  - rewrite nth_error_app2 in Hi by assumption.
    destruct (i - List.length h) as [|[|n]]; simpl in Hi; try discriminate.
    injection Hi as <-. congruence.
Qed.

Lemma paired_reply (h : Transcript) (tr : list event) (u a : Turn) :
  turn_role u = user ->
  paired (h ++ [u]) tr -> In (Post (h ++ [u])) tr ->
  paired ((h ++ [u]) ++ [a]) tr.
Proof.
  intros Hu Hp Hposted i b Hi Hb.
  destruct (Nat.lt_ge_cases i (List.length (h ++ [u]))) as [Hlt|Hge].
  - rewrite nth_error_app1 in Hi by assumption.
    destruct (Hp i b Hi Hb) as (j & v & -> & Hj & Hv & Hin).
    exists j, v. repeat split; try assumption.
    + rewrite nth_error_app1 by lia. assumption.
    + rewrite firstn_app.
      replace (S j - List.length (h ++ [u])) with 0 by lia.
      simpl. now rewrite app_nil_r.
  - rewrite nth_error_app2 in Hi by assumption.
    destruct (i - List.length (h ++ [u])) as [|[|n]] eqn:E;
      simpl in Hi; try discriminate.
    injection Hi as <-.
    rewrite length_app in *. simpl in *.
    exists (List.length h), u. repeat split.
    + lia.
    + rewrite nth_error_app1 by (rewrite length_app; simpl; lia).
      rewrite nth_error_app2 by lia.
      now rewrite Nat.sub_diag.
    + assumption.
    + replace i with (List.length (h ++ [u]))
        by (rewrite length_app; simpl; lia).
      rewrite firstn_app, firstn_all, Nat.sub_diag. simpl.
      now rewrite app_nil_r.
Qed.

Lemma call_ollama_chat_well_formed (p : string) (st : State) :
  well_formed st -> well_formed (fst (call_ollama_chat server p st)).
Proof.
  unfold well_formed. intros H.
  rewrite call_ollama_chat_unfold. simpl.
  destruct (server _); simpl.
  - apply paired_reply; [reflexivity | now apply paired_user |].
    apply in_or_app. right. now left.
  - now apply paired_user.
  - now apply paired_user.
Qed.

End Conversation.

(** ** Computations that do not raise *)

Lemma runs_eq {A} (m : M A) (n n' : nat) : runs m n -> n = n' -> runs m n'.
Proof. now intros H <-. Qed.

Lemma runs_ret {A} (a : A) : runs (ret a) 0.
Proof. intros st. exists st, a. split; [reflexivity | lia]. Qed.

Lemma runs_emit (e : event) :
  (forall messages, e <> Post messages) -> runs (emit e) 0.
Proof.
  intros He st. eexists _, tt. split; [reflexivity|]. simpl.
  rewrite posts_app. destruct e; simpl; rewrite ?app_nil_r; try lia.
  now elim (He messages).
Qed.

Lemma runs_clear : runs clear 0.
Proof. intros st. eexists _, tt. split; [reflexivity | simpl; lia]. Qed.

Lemma runs_bind {A B} (m : M A) (f : A -> M B) (n k : nat) :
  runs m n -> (forall a, runs (f a) k) -> runs (bind m f) (n + k).
Proof.
  intros Hm Hf st. destruct (Hm st) as (st1 & a & E1 & L1).
  destruct (Hf a st1) as (st2 & b & E2 & L2).
  exists st2, b. unfold bind. rewrite E1, E2. split; [reflexivity | lia].
Qed.

Lemma runs_catch {A} (m : M A) (handler : string -> M A) (n : nat) :
  runs m n -> runs (catch m handler) n.
Proof.
  intros Hm st. destruct (Hm st) as (st1 & a & E1 & L1).
  exists st1, a. unfold catch. now rewrite E1.
Qed.

Lemma runs_for_each {A} (xs : list A) (body : A -> M unit) :
  (forall x, runs (body x) 1) -> runs (for_each xs body) (List.length xs).
Proof.
  intros Hbody. induction xs as [|x xs IH]; simpl.
  - apply runs_ret.
  - apply (runs_bind (body x) (fun _ => for_each xs body) 1 (List.length xs));
      auto.
Qed.

Ltac quiet_event :=
  match goal with
  | |- forall _, (if ?b then _ else _) <> _ => destruct b; discriminate
  | |- forall _, _ <> _ => discriminate
  end.

Ltac run :=
  repeat first
    [ apply runs_ret
    | apply runs_clear
    | apply runs_emit; quiet_event
    | apply runs_catch
    | eapply runs_bind; [|intros] ].


(** C1: when the request of a call fails with a [RequestException], the
    call appends the user turn and no assistant turn, returns the bracketed
    error text instead of a reply, and returns normally; the next call is
    accepted and sent like any other. *)
Theorem failed_submission (server : list Transcript -> post_outcome)
    (st : State) (prompt e : string) :
  server (posts (trace st)
          ++ [chat_history st ++ [{| turn_role := user; content := prompt |}]])
  = RequestFailed e ->
  let st' := fst (call_ollama_chat server prompt st) in
  chat_history st'
  = chat_history st ++ [{| turn_role := user; content := prompt |}]
  /\ snd (call_ollama_chat server prompt st)
     = Ok ("[Error communicating with Ollama: " ^^ e ^^ "]")
  /\ (forall next, exists more,
        chat_history (fst (call_ollama_chat server next st'))
        = chat_history st' ++ {| turn_role := user; content := next |} :: more
        /\ posts (trace (fst (call_ollama_chat server next st')))
           = posts (trace st')
             ++ [chat_history st'
                 ++ [{| turn_role := user; content := next |}]]).
Proof.
  intros Hfail st'. subst st'.
  repeat split.
  - rewrite call_ollama_chat_unfold. simpl. now rewrite Hfail.
  - rewrite call_ollama_chat_unfold. simpl. now rewrite Hfail.
  - intros next.
    destruct (call_ollama_chat_grows server next
                (fst (call_ollama_chat server prompt st)))
      as (more & Hh & _ & Ht).
    exists more. split; [exact Hh|].
    rewrite Ht, posts_app. reflexivity.
Qed.

Lemma failed_submission_witness :
  let server := fun _ : list Transcript => RequestFailed "refused" in
  chat_history (fst (call_ollama_chat server "B" initial))
  = [{| turn_role := user; content := "B" |}]
  /\ snd (call_ollama_chat server "B" initial)
     = Ok "[Error communicating with Ollama: refused]".
Proof.
  intros server.
  destruct (failed_submission server initial "B" "refused" eq_refl)
    as (H1 & H2 & _).
  split; [exact H1 | exact H2].
Defined.

(** C2: over any sequence of calls, each replying, failing or raising, every
    assistant turn directly follows a user turn whose request was sent, the
    earlier transcript stays in place as a prefix, and every call adds at
    least one turn. *)
Theorem transcript_invariant (server : list Transcript -> post_outcome)
    (prompts : list string) (st : State) :
  well_formed st ->
  let st' := submit_all server prompts st in
  well_formed st'
  /\ (exists added, chat_history st' = chat_history st ++ added)
  /\ List.length (chat_history st) + List.length prompts
     <= List.length (chat_history st').
Proof.
  revert st. induction prompts as [|p prompts IH]; intros st Hwf; simpl.
  - repeat split; [assumption | exists []; now rewrite app_nil_r | lia].
  - destruct (IH (fst (call_ollama_chat server p st))
                (call_ollama_chat_well_formed server p st Hwf))
      as (Hwf' & (added & Hadd) & Hlen).
    destruct (call_ollama_chat_grows server p st) as (more & Hh & _ & _).
    repeat split.
    + exact Hwf'.
    + eexists. rewrite Hadd, Hh, <- app_assoc. reflexivity.
    + rewrite Hh, length_app in Hlen. simpl in Hlen. lia.
Qed.

Lemma initial_well_formed : well_formed initial.
Proof. intros [|i] a H; discriminate. Qed.

Lemma transcript_invariant_witness :
  let server := fun l : list Transcript =>
                  if List.length l =? 2 then RequestFailed "refused"
                  else Replied (Some (Some "ok")) in
  well_formed initial
  /\ well_formed (submit_all server ["A"; "B"; "C"] initial)
  /\ List.length (chat_history (submit_all server ["A"; "B"; "C"] initial)) = 5.
Proof.
  intros server.
  assert (H : well_formed initial) by (intros [|i] a E; discriminate E).
  split; [exact H|]. split; [|reflexivity].
  apply (transcript_invariant server ["A"; "B"; "C"] initial). exact H.
Defined.

(** C7 as stated fails: after [chat_history.clear()] a call is accepted, sent
    and answered like any other. *)
Lemma submit_after_clear_counterexample :
  let server := fun _ : list Transcript => Replied (Some (Some "ok")) in
  let cleared := fst (clear (fst (call_ollama_chat server "A" initial))) in
  ~ (chat_history (fst (call_ollama_chat server "B" cleared))
     = chat_history cleared)
  /\ snd (call_ollama_chat server "B" cleared) = Ok "ok".
Proof. simpl. split; [discriminate | reflexivity]. Qed.

(** C7, amended: clearing always leaves an empty transcript and clearing
    twice is the same as clearing once; there is no closed state: a call after
    clearing starts a new transcript with its user turn and sends it; when the
    request is answered it appends the stripped reply as the assistant turn
    and returns it, when the request fails it returns the bracketed error
    text, and when something else is raised it raises it. *)
Theorem clear_then_submit (server : list Transcript -> post_outcome)
    (st : State) (prompt : string) :
  let cleared := fst (clear st) in
  let asked := {| turn_role := user; content := prompt |} in
  let out := call_ollama_chat server prompt cleared in
  chat_history cleared = []
  /\ clear cleared = clear st
  /\ (exists more,
        chat_history (fst out) = asked :: more /\ List.length more <= 1)
  /\ posts (trace (fst out)) = posts (trace st) ++ [[asked]]
  /\ (forall message,
        server (posts (trace st) ++ [[asked]]) = Replied message ->
        let reply := Py.strip match message with
                              | Some (Some c) => c
                              | _ => EmptyString
                              end in
        snd out = Ok reply
        /\ chat_history (fst out)
           = [asked; {| turn_role := assistant; content := reply |}])
  /\ (forall e,
        server (posts (trace st) ++ [[asked]]) = RequestFailed e ->
        snd out = Ok ("[Error communicating with Ollama: " ^^ e ^^ "]")
        /\ chat_history (fst out) = [asked])
  /\ (forall e,
        server (posts (trace st) ++ [[asked]]) = Broke e ->
        snd out = Raise e /\ chat_history (fst out) = [asked]).
Proof.
  intros cleared asked out.
  split; [reflexivity|]. split; [reflexivity|].
  destruct (call_ollama_chat_grows server prompt cleared)
    as (more & Hh & Hlen & Ht).
  split; [exists more; split; [exact Hh | exact Hlen]|].
  split; [subst out; rewrite Ht, posts_app; reflexivity|].
  assert (E : out
              = match server (posts (trace st) ++ [[asked]]) with
                | Replied message =>
                    let reply := Py.strip match message with
                                          | Some (Some c) => c
                                          | _ => EmptyString
                                          end in
                    ({| chat_history :=
                          [asked; {| turn_role := assistant; content := reply |}];
                        trace := trace st ++ [Post [asked]] |}, Ok reply)
                | RequestFailed e =>
                    ({| chat_history := [asked];
                        trace := trace st ++ [Post [asked]] |},
                     Ok ("[Error communicating with Ollama: " ^^ e ^^ "]"))
                | Broke e =>
                    ({| chat_history := [asked];
                        trace := trace st ++ [Post [asked]] |}, Raise e)
                end).
  { subst out. rewrite call_ollama_chat_unfold. reflexivity. }
  rewrite E. refine (conj _ (conj _ _)).
  - intros message Hx reply. rewrite Hx. split; reflexivity.
  - intros e Hx. rewrite Hx. split; reflexivity.
  - intros e Hx. rewrite Hx. split; reflexivity.
Qed.

Lemma clear_then_submit_witness :
  let server := fun _ : list Transcript => Replied (Some (Some " ok ")) in
  let st := fst (call_ollama_chat server "A" initial) in
  snd (call_ollama_chat server "B" (fst (clear st))) = Ok "ok"
  /\ chat_history (fst (call_ollama_chat server "B" (fst (clear st))))
     = [{| turn_role := user; content := "B" |};
        {| turn_role := assistant; content := "ok" |}].
Proof.
  intros server st.
  destruct (clear_then_submit server st "B")
    as (_ & _ & _ & _ & Hreply & _).
  exact (Hreply (Some (Some " ok ")) eq_refl).
Defined.

(** ** An invalid project directory *)

Lemma resolve_app (p q : path) (n : node) :
  resolve (p ++ q) n
  = match resolve p n with
    | Some m => resolve q m
    | None => None
    end.
Proof.
  revert n. induction p as [|c p IH]; intros n; simpl; [reflexivity|].
  destruct n as [|name entries]; [reflexivity|].
  destruct (find _ entries); [apply IH | reflexivity].
Qed.

Lemma nothing_below_invalid (fs : node) (p : path) (c : string) :
  isdir fs p = false -> resolve (p ++ [c]) fs = None.
Proof.
  unfold isdir. intros H. rewrite resolve_app.
  destruct (resolve p fs) as [[|]|]; simpl in *; congruence.
Qed.

Section Invalid.

Variable server : list Transcript -> post_outcome.
Variable fs : node.
Variable rich_available : bool.
Variable markup_error : string -> option string.

Lemma analyze_project_invalid (project_dir : path) (description : string)
    (file_limit : option Z) (st : State) :
  isdir fs project_dir = false ->
  analyze_project server fs rich_available markup_error project_dir description file_limit st
  = ({| chat_history := chat_history st;
        trace := trace st
                 ++ [Print (Py.nl ^^ "Analyzing project: " ^^ path_str project_dir);
                     Print ("[Error] Path does not exist or is not a directory: "
                            ^^ path_str project_dir)] |},
     Ok tt).
Proof.
  unfold isdir, analyze_project, bind, emit. intros H.
  destruct (resolve project_dir fs) as [[|]|]; simpl in *;
    try discriminate; now rewrite <- app_assoc.
Qed.

Lemma main_invalid (dir : option path) (description : option string)
    (limit : option Z) (st : State) :
  let project_dir := match dir with Some d => d | None => DEFAULT_DIR end in
  isdir fs project_dir = false ->
  main server fs rich_available markup_error dir description limit st
  = ({| chat_history := chat_history st;
        trace := trace st
                 ++ [Print (Py.nl ^^ "Analyzing project: " ^^ path_str project_dir);
                     Print ("[Error] Path does not exist or is not a directory: "
                            ^^ path_str project_dir)] |},
     Ok tt).
Proof.
  intros project_dir H. unfold main. fold project_dir.
  rewrite (nothing_below_invalid fs project_dir "description.txt" H).
  unfold bind at 1. unfold ret at 1.
  now apply analyze_project_invalid.
Qed.

End Invalid.

(** C5: when the project path is not an existing directory, neither
    [analyze_project] nor the whole script sends any request or appends any
    turn. *)
Theorem invalid_path_no_chat (server : list Transcript -> post_outcome)
    (fs : node) (rich : bool)
    (markup : string -> option string) (project_dir : path)
    (description : string) (cli_description : option string)
    (file_limit : option Z) (st : State) :
  isdir fs project_dir = false ->
  let analysed :=
    fst (analyze_project server fs rich markup project_dir description file_limit st) in
  let ran :=
    fst (main server fs rich markup (Some project_dir) cli_description file_limit st) in
  chat_history analysed = chat_history st
  /\ posts (trace analysed) = posts (trace st)
  /\ chat_history ran = chat_history st
  /\ posts (trace ran) = posts (trace st).
Proof.
  intros H analysed ran. subst analysed ran.
  rewrite analyze_project_invalid by assumption.
  rewrite (main_invalid server fs rich markup (Some project_dir)) by assumption.
  simpl. rewrite posts_app. simpl. rewrite app_nil_r. auto.
Qed.

Lemma invalid_path_no_chat_witness :
  let server := fun _ : list Transcript => Replied (Some (Some "ok")) in
  let fs := Dir EmptyString [File "notes" (Text_of "n")] in
  isdir fs ["notes"] = false
  /\ posts (trace (fst (analyze_project server fs false (fun _ => None) ["notes"] "d" None initial)))
     = [].
Proof.
  intros server fs. split; [reflexivity|].
  apply (invalid_path_no_chat server fs false (fun _ => None) ["notes"] "d" None None initial).
  reflexivity.
Defined.

(** C6 as stated fails: on a missing directory the script prints its
    diagnostic and then ends normally, with the exit status of success. *)
Lemma invalid_dir_exit_counterexample :
  let server := fun _ : list Transcript => Replied (Some (Some "ok")) in
  let fs := Dir EmptyString [Dir "proj" []] in
  isdir fs ["missing"] = false
  /\ ~ (exit_status
          (snd (main server fs false (fun _ => None) (Some ["missing"]) None None initial))
        <> 0%Z).
Proof. simpl. split; [reflexivity | intros H; now apply H]. Qed.

(** C6, amended: on an invalid project directory the script prints the
    diagnostic naming the path as its last output, does nothing more, and
    returns normally, so the process ends with status 0. *)
Theorem invalid_dir_diagnostic (server : list Transcript -> post_outcome)
    (fs : node) (rich : bool)
    (markup : string -> option string) (dir : option path)
    (description : option string) (limit : option Z) (st : State) :
  let project_dir := match dir with Some d => d | None => DEFAULT_DIR end in
  isdir fs project_dir = false ->
  trace (fst (main server fs rich markup dir description limit st))
  = trace st
    ++ [Print (Py.nl ^^ "Analyzing project: " ^^ path_str project_dir);
        Print ("[Error] Path does not exist or is not a directory: "
               ^^ path_str project_dir)]
  /\ snd (main server fs rich markup dir description limit st) = Ok tt
  /\ exit_status (snd (main server fs rich markup dir description limit st)) = 0%Z.
Proof.
  intros project_dir H.
  rewrite (main_invalid server fs rich markup dir description limit st H).
  auto.
Qed.

Lemma invalid_dir_diagnostic_witness :
  let server := fun _ : list Transcript => Replied (Some (Some "ok")) in
  let fs := Dir EmptyString [Dir "proj" []] in
  isdir fs ["missing"] = false
  /\ exit_status
       (snd (main server fs true (fun _ => None) (Some ["missing"]) None (Some 2%Z) initial))
     = 0%Z.
Proof.
  intros server fs. split; [reflexivity|].
  apply (invalid_dir_diagnostic server fs true (fun _ => None) (Some ["missing"]) None
           (Some 2%Z) initial).
  reflexivity.
Defined.

(** ** Clipping of the reviewed text *)

Lemma take_all (n : nat) (s : string) :
  String.length s <= n -> Py.take n s = s.
Proof.
  unfold Py.take. revert n. induction s as [|c s IH]; intros [|n] H; simpl in *;
    try reflexivity; try lia.
  now rewrite IH by lia.
Qed.

Lemma take_length (n : nat) (s : string) :
  String.length (Py.take n s) = Nat.min n (String.length s).
Proof.
  unfold Py.take. revert n. induction s as [|c s IH]; intros [|n]; simpl;
    try reflexivity.
  now rewrite IH.
Qed.

Lemma take_prefix (n : nat) (s : string) :
  exists rest, s = Py.take n s ^^ rest.
Proof.
  unfold Py.take. revert n. induction s as [|c s IH]; intros [|n]; simpl.
  - now exists EmptyString.
  - now exists EmptyString.
  - now exists (String c s).
  - destruct (IH n) as [rest E]. exists rest. now rewrite <- E.
Qed.

Example clip_long :
  String.length (String.concat EmptyString (repeat "ab" 2000)) = 4000
  /\ String.length (clip (String.concat EmptyString (repeat "ab" 2000))) = 3000.
Proof. split; vm_compute; reflexivity. Qed.

Section Review.

Variable server : list Transcript -> post_outcome.
Variable fs : node.
Variable markup_error : string -> option string.

Lemma console_print_quiet (text : string) (st : State) :
  posts (trace (fst (console_print markup_error text st))) = posts (trace st)
  /\ chat_history (fst (console_print markup_error text st)) = chat_history st.
Proof.
  unfold console_print, raise, emit. destruct (markup_error text); cbn.
  - auto.
  - rewrite posts_app. cbn. now rewrite app_nil_r.
Qed.

Ltac markup_cases :=
  repeat match goal with
         | |- context [markup_error ?t] => destruct (markup_error t)
         end.

Lemma review_rich_request (project_path file : path) (text : string)
    (st : State) :
  read_text fs file = inl text ->
  posts (trace (fst (review_rich server fs markup_error project_path file st)))
  = posts (trace st)
    ++ [chat_history st
        ++ [{| turn_role := user;
               content := review_prompt pad_rich file
                            (Py.lstrip_dots (path_suffix file)) (clip text) |}]].
Proof.
  intros Hread. unfold review_rich, read_code, console_print. rewrite Hread.
  unfold catch, bind, emit, ret, raise. cbv beta iota.
  rewrite call_ollama_chat_unfold. cbv zeta.
  cbn [chat_history trace].
  rewrite posts_app. cbn [posts]. rewrite app_nil_r.
  destruct (server _); cbv beta iota; markup_cases; cbv beta iota;
    markup_cases; cbv beta iota;
    cbn [fst trace chat_history];
    rewrite ?posts_app; cbn [posts]; rewrite ?app_nil_r; reflexivity.
Qed.

Lemma review_plain_request (total i : nat) (file : path) (text : string)
    (st : State) :
  read_text fs file = inl text ->
  posts (trace (fst (review_plain server fs total (i, file) st)))
  = posts (trace st)
    ++ [chat_history st
        ++ [{| turn_role := user;
               content := review_prompt pad_plain file
                            (Py.lstrip_dots (path_suffix file)) (clip text) |}]].
Proof.
  intros Hread. unfold review_plain, read_code. rewrite Hread.
  unfold catch, bind at 1 2 3, emit at 1, ret at 1.
  cbv beta iota. rewrite call_ollama_chat_unfold. cbv zeta.
  cbn [chat_history trace].
  rewrite posts_app. cbn [posts]. rewrite app_nil_r.
  destruct (server _); cbn -[review_prompt clip];
    rewrite !posts_app; cbn [posts]; rewrite ?app_nil_r; reflexivity.
Qed.

End Review.

(** C9: the request sent for a readable file, in either branch of the loop,
    is the review text of the script with, between the code fences, a text
    [code] that is the file's text itself when that has at most 3000
    characters, and otherwise its first 3000 characters. *)
Theorem review_embeds_clipped_text
    (server : list Transcript -> post_outcome) (fs : node)
    (markup : string -> option string)
    (project_path file : path) (total i : nat) (text : string) (st : State) :
  read_text fs file = inl text ->
  let ext := Py.lstrip_dots (path_suffix file) in
  let request (pad code : string) :=
    "You are a senior code reviewer. Please review the following file for:"
    ^^ Py.nl ^^ pad ^^ "- Bugs"
    ^^ Py.nl ^^ pad ^^ "- Security issues"
    ^^ Py.nl ^^ pad ^^ "- Logic errors"
    ^^ Py.nl ^^ pad ^^ "- Style issues"
    ^^ Py.nl ^^ pad ^^ "- Maintainability"
    ^^ Py.nl ^^ pad ^^ "File: " ^^ path_str file
    ^^ " Code:```" ^^ ext ^^ Py.nl ^^ code ^^ "```" in
  exists code,
    posts (trace (fst (review_rich server fs markup project_path file st)))
    = posts (trace st)
      ++ [chat_history st
          ++ [{| turn_role := user;
                 content := request "                    " code |}]]
    /\ posts (trace (fst (review_plain server fs total (i, file) st)))
       = posts (trace st)
         ++ [chat_history st
             ++ [{| turn_role := user;
                    content := request "                " code |}]]
    /\ (String.length text <= 3000 -> code = text)
    /\ (3000 < String.length text ->
        String.length code = 3000 /\ exists rest, text = code ^^ rest).
Proof.
  intros Hread ext request. exists (clip text). repeat split.
  - now apply review_rich_request.
  - now apply review_plain_request.
  - intros Hlen. now apply take_all.
  - unfold clip. rewrite take_length. unfold MAX_CODE_CHARS. lia.
  - apply take_prefix.
Qed.

Lemma review_embeds_clipped_text_witness :
  let server := fun _ : list Transcript => Replied (Some (Some "fine")) in
  let fs := Dir EmptyString [Dir "proj" [File "main.py" (Text_of "print(1)")]] in
  read_text fs ["proj"; "main.py"] = inl "print(1)"
  /\ exists code,
       posts (trace (fst (review_plain server fs 1 (1, ["proj"; "main.py"])
                            initial)))
       = [[{| turn_role := user;
              content := review_prompt pad_plain ["proj"; "main.py"] "py" code |}]]
       /\ code = "print(1)".
Proof.
  intros server fs. split; [reflexivity|].
  destruct (review_embeds_clipped_text server fs (fun _ => None) ["proj"]
              ["proj"; "main.py"] 1 1 "print(1)" initial eq_refl)
    as (code & _ & Hplain & Hshort & _).
  exists code. split; [exact Hplain|]. apply Hshort. simpl. lia.
Defined.

(** ** The catalog *)

(** Induction on a tree, with the hypothesis for every entry of a directory. *)
Lemma node_induction (P : node -> Prop)
    (HFile : forall name c, P (File name c))
    (HDir : forall name entries, Forall P entries -> P (Dir name entries)) :
  forall n, P n.
Proof.
  fix IH 1. intros [name c|name entries].
  - apply HFile.
  - apply HDir. induction entries as [|e r IHr]; constructor.
    + apply IH.
    + exact IHr.
Qed.

Lemma prune_name (dirs files : bool) (n : node) :
  node_name (prune dirs files n) = node_name n.
Proof. now destruct n. Qed.

Lemma prune_is_dir (dirs files : bool) (n : node) :
  is_dir (prune dirs files n) = is_dir n.
Proof. now destruct n. Qed.

Lemma dropped_prune (dirs files : bool) (n : node) :
  dropped dirs files (prune dirs files n) = dropped dirs files n.
Proof. unfold dropped. now rewrite prune_name, prune_is_dir. Qed.

Lemma dropped_excluded (dirs files : bool) (n : node) :
  dropped dirs files n = true -> mem (node_name n) EXCLUDED_DIRS = true.
Proof. unfold dropped. intros H. now apply andb_true_iff in H. Qed.

(** *** The order of siblings *)

Lemma ascii_compare_refl (a : ascii) : Ascii.compare a a = Eq.
Proof. unfold Ascii.compare. apply N.compare_refl. Qed.

Lemma string_leb_trans (a b c : string) :
  String.leb a b = true -> String.leb b c = true -> String.leb a c = true.
Proof.
  unfold String.leb. revert b c.
  induction a as [|x a IH]; intros [|y b] [|z c]; simpl; try easy.
  unfold Ascii.compare.
  destruct (N.compare_spec (N_of_ascii x) (N_of_ascii y)) as [Exy|Lxy|Gxy];
    destruct (N.compare_spec (N_of_ascii y) (N_of_ascii z)) as [Eyz|Lyz|Gyz];
    destruct (N.compare_spec (N_of_ascii x) (N_of_ascii z)) as [Exz|Lxz|Gxz];
    try easy; try lia.
  apply IH.
Qed.

Lemma string_leb_false (a b : string) :
  String.leb a b = false -> String.leb b a = true.
Proof.
  intros H. destruct (String.leb_total a b) as [E|E]; congruence.
Qed.

Lemma insert_in (x e : node) (l : list node) :
  In e (insert_by_name x l) <-> e = x \/ In e l.
Proof.
  induction l as [|y l IH]; simpl.
  - intuition.
  - destruct (String.leb _ _); simpl; rewrite ?IH; intuition.
Qed.

Lemma sorted_in (e : node) (l : list node) : In e (sorted l) <-> In e l.
Proof.
  induction l as [|x l IH]; simpl; [reflexivity|].
  rewrite insert_in, IH. intuition.
Qed.

Lemma insert_sorted (x : node) (l : list node) :
  StronglySorted name_le l -> StronglySorted name_le (insert_by_name x l).
Proof.
  induction 1 as [|y l Hl IH Hy]; simpl.
  - constructor; constructor.
  - destruct (String.leb (node_name x) (node_name y)) eqn:E.
    + constructor; [now constructor|].
      constructor; [exact E|].
      eapply Forall_impl; [|exact Hy].
      intros z Hz. unfold name_le in *. eapply string_leb_trans; eassumption.
    + constructor; [exact IH|].
      apply Forall_forall. intros z Hz. apply insert_in in Hz.
      destruct Hz as [->|Hz].
      * now apply string_leb_false.
      * rewrite Forall_forall in Hy. now apply Hy.
Qed.

Lemma sorted_sorted (l : list node) : StronglySorted name_le (sorted l).
Proof.
  induction l as [|x l IH]; simpl; [constructor | now apply insert_sorted].
Qed.

Lemma insert_first (x : node) (l : list node) :
  Forall (name_le x) l -> insert_by_name x l = x :: l.
Proof.
  intros H. destruct H as [|y l Hy _]; simpl; [reflexivity|].
  unfold name_le in Hy. now rewrite Hy.
Qed.

Lemma filter_insert (p : node -> bool) (x : node) (l : list node) :
  StronglySorted name_le l ->
  filter p (insert_by_name x l)
  = if p x then insert_by_name x (filter p l) else filter p l.
Proof.
  induction 1 as [|y l Hl IH Hy]; simpl.
  - now destruct (p x).
  - destruct (String.leb (node_name x) (node_name y)) eqn:E; simpl.
    + destruct (p x) eqn:Px; [|reflexivity].
      symmetry. apply insert_first.
      assert (Hall : Forall (name_le x) (y :: l)).
      { constructor; [exact E|].
        eapply Forall_impl; [|exact Hy].
        intros z Hz. unfold name_le in *. eapply string_leb_trans; eassumption. }
      apply Forall_forall. intros z Hz.
      change (In z (filter p (y :: l))) in Hz.
      apply filter_In in Hz. rewrite Forall_forall in Hall. now apply Hall.
    + rewrite IH. destruct (p y) eqn:Py, (p x) eqn:Px; simpl;
        rewrite ?E; reflexivity.
Qed.

Lemma filter_sorted (p : node -> bool) (l : list node) :
  filter p (sorted l) = sorted (filter p l).
Proof.
  induction l as [|x l IH]; simpl; [reflexivity|].
  rewrite filter_insert by apply sorted_sorted.
  rewrite IH. now destruct (p x).
Qed.

Lemma insert_map (g : node -> node) (x : node) (l : list node) :
  (forall e, node_name (g e) = node_name e) ->
  insert_by_name (g x) (map g l) = map g (insert_by_name x l).
Proof.
  intros Hg. induction l as [|y l IH]; simpl; [reflexivity|].
  rewrite !Hg. destruct (String.leb _ _); simpl; [reflexivity|].
  now rewrite IH.
Qed.

Lemma sorted_map (g : node -> node) (l : list node) :
  (forall e, node_name (g e) = node_name e) ->
  sorted (map g l) = map g (sorted l).
Proof.
  intros Hg. induction l as [|x l IH]; simpl; [reflexivity|].
  now rewrite IH, insert_map.
Qed.

(** *** The rendered tree *)

Lemma flat_map_ext_in {A B} (f g : A -> list B) (l : list A) :
  (forall a, In a l -> f a = g a) -> flat_map f l = flat_map g l.
Proof.
  intros H. induction l as [|a l IH]; simpl; [reflexivity|].
  rewrite (H a) by now left. rewrite IH; [reflexivity|].
  intros b Hb. apply H. now right.
Qed.

Lemma flat_map_map {A B C} (f : B -> list C) (g : A -> B) (l : list A) :
  flat_map f (map g l) = flat_map (fun a => f (g a)) l.
Proof.
  induction l as [|a l IH]; simpl; [reflexivity|]. now rewrite IH.
Qed.

Lemma height_in (e : node) (l : list node) :
  In e l -> height e <= list_max (map height l).
Proof.
  intros H.
  assert (F : Forall (fun k => k <= list_max (map height l)) (map height l))
    by (apply list_max_le; apply Nat.le_refl).
  rewrite Forall_forall in F. apply F. now apply in_map.
Qed.

(** Any bound that covers the depth of the tree gives the same rendering. *)
Lemma fuel_irrelevant (fuel1 fuel2 : nat) (entries : list node)
    (indent : string) :
  entries_height entries <= fuel1 -> entries_height entries <= fuel2 ->
  generate_project_tree_fuel fuel1 entries indent
  = generate_project_tree_fuel fuel2 entries indent.
Proof.
  revert fuel2 entries indent.
  induction fuel1 as [|fuel1 IH]; intros [|fuel2] entries indent H1 H2;
    unfold entries_height in *; try lia.
  simpl. f_equal. apply flat_map_ext_in. intros e He.
  apply (proj1 (sorted_in e entries)) in He. apply height_in in He.
  unfold item_lines. destruct (mem _ _); [reflexivity|].
  destruct e as [name c|name sub]; [reflexivity|].
  simpl in He. f_equal. f_equal.
  apply IH; unfold entries_height; lia.
Qed.

Lemma prune_height (dirs files : bool) (n : node) :
  height (prune dirs files n) <= height n.
Proof.
  induction n as [name c|name entries IH] using node_induction; simpl;
    [lia|].
  apply le_n_S. apply list_max_le. apply Forall_forall.
  intros k Hk. apply in_map_iff in Hk. destruct Hk as (e & <- & He).
  apply filter_In in He. destruct He as [He _].
  apply in_map_iff in He. destruct He as (e0 & <- & He0).
  rewrite Forall_forall in IH.
  pose proof (IH e0 He0). pose proof (height_in e0 entries He0). lia.
Qed.

Lemma prune_entries_height (dirs files : bool) (entries : list node) :
  entries_height (prune_entries dirs files entries) <= entries_height entries.
Proof.
  exact (prune_height dirs files (Dir EmptyString entries)).
Qed.

Lemma flat_map_filter {A B} (p : A -> bool) (f : A -> list B) (l : list A) :
  (forall a, p a = false -> f a = []) ->
  flat_map f (filter p l) = flat_map f l.
Proof.
  intros H. induction l as [|a l IH]; simpl; [reflexivity|].
  destruct (p a) eqn:E; simpl; rewrite IH; [reflexivity|].
  now rewrite (H a E).
Qed.

(** The entries the loop of [generate_project_tree] goes through and does
    not skip are the same before and after pruning. *)
Lemma item_lines_pruned (dirs files : bool)
    (sub : list node -> string -> string) (indent : string)
    (entries : list node) :
  flat_map (item_lines sub indent) (sorted (prune_entries dirs files entries))
  = flat_map (fun e => item_lines sub indent (prune dirs files e))
             (sorted entries).
Proof.
  unfold prune_entries.
  rewrite <- filter_sorted, flat_map_filter.
  - rewrite sorted_map by apply prune_name. apply flat_map_map.
  - intros a Ha. apply negb_false_iff in Ha. apply dropped_excluded in Ha.
    unfold item_lines. now rewrite Ha.
Qed.

Lemma generate_project_tree_fuel_pruned (dirs files : bool) (fuel : nat)
    (entries : list node) (indent : string) :
  generate_project_tree_fuel fuel (prune_entries dirs files entries) indent
  = generate_project_tree_fuel fuel entries indent.
Proof.
  revert entries indent. induction fuel as [|fuel IH]; intros entries indent;
    simpl; [reflexivity|].
  f_equal. rewrite item_lines_pruned. apply flat_map_ext_in. intros e _.
  unfold item_lines. rewrite prune_name.
  destruct (mem _ _); [reflexivity|].
  destruct e as [name c|name sub]; simpl; [reflexivity|].
  f_equal. f_equal. apply IH.
Qed.

Lemma generate_project_tree_pruned (dirs files : bool)
    (entries : list node) (indent : string) :
  generate_project_tree (prune_entries dirs files entries) indent
  = generate_project_tree entries indent.
Proof.
  unfold generate_project_tree.
  rewrite (fuel_irrelevant _ (entries_height entries)).
  - apply generate_project_tree_fuel_pruned.
  - apply Nat.le_refl.
  - apply prune_entries_height.
Qed.

(** The recursion of the source: the rendering of a directory is the join of
    the lines of its sorted entries, each sub-directory rendered the same
    way with a longer indent. *)
Lemma generate_project_tree_equation (entries : list node) (indent : string) :
  generate_project_tree entries indent
  = Py.join Py.nl
      (flat_map (item_lines generate_project_tree indent) (sorted entries)).
Proof.
  unfold generate_project_tree at 1. unfold entries_height. simpl.
  f_equal. apply flat_map_ext_in. intros e He.
  apply (proj1 (sorted_in e entries)) in He. apply height_in in He.
  unfold item_lines. destruct (mem _ _); [reflexivity|].
  destruct e as [name c|name sub]; [reflexivity|].
  simpl in He. f_equal. f_equal.
  apply fuel_irrelevant; unfold entries_height; lia.
Qed.

Lemma prune_clean (n : node) : has_excluded_dir (prune true false n) = false.
Proof.
  induction n as [name c|name entries IH] using node_induction;
    [reflexivity|].
  cbn [prune has_excluded_dir].
  destruct (existsb _ _) eqn:E; [|reflexivity].
  apply existsb_exists in E. destruct E as (e & He & Hbad).
  apply filter_In in He. destruct He as [He Hkept].
  apply in_map_iff in He. destruct He as (e0 & <- & He0).
  rewrite Forall_forall in IH. rewrite (IH e0 He0), orb_false_r in Hbad.
  unfold dropped in Hkept.
  destruct (is_dir (prune true false e0)); [|discriminate].
  rewrite andb_true_r in Hkept. rewrite andb_true_l in Hbad.
  rewrite Hbad in Hkept. discriminate.
Qed.

(** *** The candidate files *)

Lemma excluded_not_allowed (root : path) (name : string) :
  mem name EXCLUDED_DIRS = true -> allowed (root ++ [name]) = false.
Proof.
  unfold mem, EXCLUDED_DIRS. simpl. rewrite !orb_true_iff.
  unfold allowed, path_suffix, path_name. rewrite last_last.
  intros [H|[H|[H|[H|[H|[H|H]]]]]]; try discriminate;
    apply String.eqb_eq in H; subst name; reflexivity.
Qed.

Lemma files_of_pruned (dirs files : bool) (root : path) (entries : list node) :
  files_of root (prune_entries dirs files entries) = files_of root entries.
Proof.
  unfold files_of, prune_entries. rewrite flat_map_filter.
  - rewrite flat_map_map. apply flat_map_ext_in. intros e _. now destruct e.
  - intros a Ha. apply negb_false_iff in Ha. apply dropped_excluded in Ha.
    destruct a as [name c|name sub]; [|reflexivity].
    simpl in Ha. now rewrite (excluded_not_allowed root name Ha).
Qed.

Lemma walk_pruned (dirs files : bool) (n : node) :
  forall root, walk root (prune dirs files n) = walk root n.
Proof.
  induction n as [name c|name entries IH] using node_induction; intros root;
    [reflexivity|].
  cbn [walk prune]. fold (prune_entries dirs files entries).
  rewrite files_of_pruned. f_equal.
  unfold prune_entries. rewrite flat_map_filter.
  - rewrite flat_map_map. apply flat_map_ext_in. intros e He.
    rewrite Forall_forall in IH. specialize (IH e He).
    destruct e as [ename c|ename sub]; [reflexivity|].
    cbn -[mem walk].
    destruct (mem ename EXCLUDED_DIRS); [reflexivity|]. apply IH.
  - intros a Ha. apply negb_false_iff in Ha. apply dropped_excluded in Ha.
    destruct a as [ename c|ename sub]; [reflexivity|].
    cbn [node_name] in Ha. now rewrite Ha.
Qed.

(** Where a candidate comes from: below [root], through directories whose
    names are not excluded. *)
Lemma walk_origin (n : node) :
  forall root f,
    In f (walk root n) ->
    exists rel,
      f = root ++ rel /\ rel <> []
      /\ Forall (fun d => mem d EXCLUDED_DIRS = false) (removelast rel).
Proof.
  induction n as [name c|name entries IH] using node_induction;
    intros root f Hf; [exact (False_ind _ Hf)|].
  cbn [walk] in Hf. apply in_app_or in Hf. destruct Hf as [Hf|Hf].
  - unfold files_of in Hf. apply in_flat_map in Hf.
    destruct Hf as (e & _ & Hf).
    destruct e as [filename c|dname sub]; cbn -[allowed] in Hf;
      [|exact (False_ind _ Hf)].
    destruct (allowed (root ++ [filename])); [|exact (False_ind _ Hf)].
    destruct Hf as [<-|[]].
    exists [filename]. repeat split; [discriminate | constructor].
  - apply in_flat_map in Hf. destruct Hf as (e & He & Hf).
    rewrite Forall_forall in IH. specialize (IH e He).
    destruct e as [filename c|dname sub]; cbn -[mem walk] in Hf;
      [exact (False_ind _ Hf)|].
    destruct (mem dname EXCLUDED_DIRS) eqn:E; [exact (False_ind _ Hf)|].
    destruct (IH _ _ Hf) as (rel & -> & Hne & Hall).
    exists (dname :: rel). repeat split.
    + now rewrite <- app_assoc.
    + discriminate.
    + destruct rel as [|r rel]; [contradiction|].
      change (removelast (dname :: r :: rel))
        with (dname :: removelast (r :: rel)).
      now constructor.
Qed.

Example tree_of_small_project :
  generate_project_tree
    [File "notes.txt" (Text_of "n"); File "build" (Text_of "b");
     Dir "src" [Dir ".git" [File "HEAD" (Text_of "h")];
                File "b.py" (Text_of "2"); File "a.py" (Text_of "1")];
     Dir "build" [File "out.js" (Text_of "o")]]
    EmptyString
  = Py.join Py.nl
      [Text.BRANCH ^^ "notes.txt";
       Text.BRANCH ^^ "src";
       Py.join Py.nl [Text.BAR ^^ Text.BRANCH ^^ "a.py";
                      Text.BAR ^^ Text.BRANCH ^^ "b.py"]].
Proof. vm_compute. reflexivity. Qed.

Example candidates_of_small_project :
  collect_source_files ["proj"]
    (Dir "proj"
       [File "notes.txt" (Text_of "n"); File "Main.PY" (Text_of "m");
        Dir "build" [File "out.js" (Text_of "o")];
        Dir "src" [Dir ".git" [File "hook.py" (Text_of "h")];
                   File "b.py" (Text_of "2")]])
  = [["proj"; "Main.PY"]; ["proj"; "src"; "b.py"]].
Proof. vm_compute. reflexivity. Qed.

(** C8: a candidate file lies below the root through directories none of
    which has an excluded name, and deleting every directory with an excluded
    name, at every depth and with all it contains, leaves a tree without such
    directories that has the same list of candidates and the same rendered
    tree. *)
Theorem excluded_directories_hidden (top : path) (n : node)
    (entries : list node) (indent : string) :
  (forall f,
     In f (collect_source_files top n) ->
     exists rel,
       f = top ++ rel /\ rel <> []
       /\ Forall (fun d => mem d EXCLUDED_DIRS = false) (removelast rel))
  /\ has_excluded_dir (prune true false n) = false
  /\ collect_source_files top (prune true false n) = collect_source_files top n
  /\ has_excluded_dir (prune true false (Dir EmptyString entries)) = false
  /\ generate_project_tree (prune_entries true false entries) indent
     = generate_project_tree entries indent.
Proof.
  repeat split.
  - intros f. apply walk_origin.
  - apply prune_clean.
  - apply walk_pruned.
  - apply prune_clean.
  - apply generate_project_tree_pruned.
Qed.

Lemma excluded_directories_hidden_witness :
  let n := Dir "proj" [Dir "src" [Dir ".venv" [File "x.py" (Text_of "x")];
                                  File "b.py" (Text_of "2")]] in
  In ["proj"; "src"; "b.py"] (collect_source_files ["proj"] n)
  /\ exists rel,
       ["proj"; "src"; "b.py"] = ["proj"] ++ rel /\ rel <> []
       /\ Forall (fun d => mem d EXCLUDED_DIRS = false) (removelast rel).
Proof.
  intros n.
  assert (H : In ["proj"; "src"; "b.py"] (collect_source_files ["proj"] n))
    by (vm_compute; left; reflexivity).
  split; [exact H|].
  exact (proj1 (excluded_directories_hidden ["proj"] n [] EmptyString) _ H).
Defined.

(** C10: an entry whose name is in the exclusion set adds no line to the
    tree even when it is a regular file: deleting all such files, at every
    depth, leaves the rendering unchanged, and so does adding files named
    "build" and ".venv". *)
Theorem excluded_file_names_hidden (entries : list node) (indent : string) :
  (forall sub name c,
     mem name EXCLUDED_DIRS = true -> item_lines sub indent (File name c) = [])
  /\ generate_project_tree (prune_entries false true entries) indent
     = generate_project_tree entries indent
  /\ (forall c1 c2,
        generate_project_tree (File "build" c1 :: File ".venv" c2 :: entries)
                              indent
        = generate_project_tree entries indent).
Proof.
  split; [|split].
  - intros sub name c H. unfold item_lines. cbn [node_name]. now rewrite H.
  - apply generate_project_tree_pruned.
  - intros c1 c2.
    rewrite <- (generate_project_tree_pruned false true
                  (File "build" c1 :: File ".venv" c2 :: entries)).
    change (prune_entries false true
              (File "build" c1 :: File ".venv" c2 :: entries))
      with (prune_entries false true entries).
    apply generate_project_tree_pruned.
Qed.

Lemma excluded_file_names_hidden_witness :
  mem "build" EXCLUDED_DIRS = true
  /\ item_lines (fun _ _ => EmptyString) EmptyString
                (File "build" (Text_of "all:")) = [].
Proof.
  split; [reflexivity|].
  apply (excluded_file_names_hidden [] EmptyString). reflexivity.
Defined.

(** * Further properties of the catalog *)

Lemma walk_allowed (n : node) :
  forall root f, In f (walk root n) -> allowed f = true.
Proof.
  induction n as [name c|name entries IH] using node_induction;
    intros root f Hf; [exact (False_ind _ Hf)|].
  cbn [walk] in Hf. apply in_app_or in Hf. destruct Hf as [Hf|Hf].
  - unfold files_of in Hf. apply in_flat_map in Hf.
    destruct Hf as (e & _ & Hf).
    destruct e as [filename c|dname sub]; cbn -[allowed] in Hf;
      [|exact (False_ind _ Hf)].
    destruct (allowed (root ++ [filename])) eqn:E; [|exact (False_ind _ Hf)].
    destruct Hf as [<-|[]]. exact E.
  - apply in_flat_map in Hf. destruct Hf as (e & He & Hf).
    rewrite Forall_forall in IH. specialize (IH e He).
    destruct e as [filename c|dname sub]; cbn -[mem walk] in Hf;
      [exact (False_ind _ Hf)|].
    destruct (mem dname EXCLUDED_DIRS); [exact (False_ind _ Hf)|].
    exact (IH _ _ Hf).
Qed.

(** X1: every file [collect_source_files] returns has an extension of the
    allow-list, compared in lower case. *)
Theorem candidates_have_allowed_extension (top : path) (n : node) (f : path) :
  In f (collect_source_files top n) ->
  mem (Py.lower (path_suffix f)) ALLOWED_EXTENSIONS = true.
Proof. apply walk_allowed. Qed.

Lemma candidates_have_allowed_extension_witness :
  let n := Dir "proj" [File "Main.PY" (Text_of "m"); File "notes.txt" (Text_of "n")] in
  In ["proj"; "Main.PY"] (collect_source_files ["proj"] n)
  /\ mem (Py.lower (path_suffix ["proj"; "Main.PY"])) ALLOWED_EXTENSIONS = true.
Proof.
  intros n.
  assert (H : In ["proj"; "Main.PY"] (collect_source_files ["proj"] n))
    by (vm_compute; left; reflexivity).
  split; [exact H|].
  exact (candidates_have_allowed_extension ["proj"] n _ H).
Defined.

Lemma walk_complete (n : node) (dirs : list string) (m : node) :
  below n dirs m ->
  forall root dname entries fname c,
    m = Dir dname entries ->
    Forall (fun d => mem d EXCLUDED_DIRS = false) dirs ->
    In (File fname c) entries ->
    allowed (root ++ dirs ++ [fname]) = true ->
    In (root ++ dirs ++ [fname]) (walk root n).
Proof.
  induction 1 as [n|name entries d rel m Hd Hdir Hbelow IH];
    intros root dname es fname c Hm Hok Hfile Hallowed.
  - subst n. cbn [walk]. apply in_or_app. left.
    unfold files_of. apply in_flat_map.
    exists (File fname c). split; [exact Hfile|].
    cbn -[allowed]. cbn [app] in Hallowed. rewrite Hallowed. now left.
  - cbn [walk]. apply in_or_app. right. apply in_flat_map.
    exists d. split; [exact Hd|].
    destruct d as [x y|dn sub]; [discriminate|].
    cbn [node_name] in *. inversion Hok as [|? ? Hdn Hrest]; subst.
    rewrite Hdn.
    replace (root ++ (dn :: rel) ++ [fname])
      with ((root ++ [dn]) ++ rel ++ [fname])
      by (now rewrite <- app_assoc).
    eapply IH; eauto.
    now rewrite <- app_assoc.
Qed.

(** X2: no allowed file is missed: a file with an allowed extension, in a
    directory reached from the root through directories without excluded
    names, is among the candidates, under the path that leads to it. *)
Theorem allowed_files_are_collected (top : path) (n : node)
    (dirs : list string) (dname : string) (entries : list node)
    (fname : string) (c : file_content) :
  below n dirs (Dir dname entries) ->
  Forall (fun d => mem d EXCLUDED_DIRS = false) dirs ->
  In (File fname c) entries ->
  allowed (top ++ dirs ++ [fname]) = true ->
  In (top ++ dirs ++ [fname]) (collect_source_files top n).
Proof.
  intros Hbelow Hok Hfile Hallowed.
  eapply walk_complete; eauto.
Qed.

Lemma allowed_files_are_collected_witness :
  let src := Dir "src" [File "b.py" (Text_of "2")] in
  let n := Dir "proj" [File "a.txt" (Text_of "1"); src] in
  In ["proj"; "src"; "b.py"] (collect_source_files ["proj"] n).
Proof.
  intros src n.
  apply (allowed_files_are_collected ["proj"] n ["src"] "src"
           [File "b.py" (Text_of "2")] "b.py" (Text_of "2")).
  - apply (below_step "proj" _ src [] src).
    + right. left. reflexivity.
    + reflexivity.
    + apply below_here.
  - repeat constructor.
  - left. reflexivity.
  - reflexivity.
Defined.

(** ** The listing order of the operating system *)

Lemma insert_permutation (x : node) (l : list node) :
  Permutation (insert_by_name x l) (x :: l).
Proof.
  induction l as [|y l IH]; simpl; [reflexivity|].
  destruct (String.leb _ _); [reflexivity|].
  rewrite IH. apply perm_swap.
Qed.

Lemma sorted_permutation (l : list node) : Permutation (sorted l) l.
Proof.
  induction l as [|x l IH]; simpl; [reflexivity|].
  rewrite insert_permutation. now constructor.
Qed.

Lemma same_name_same_entry (l : list node) (x y : node) :
  NoDup (map node_name l) -> In x l -> In y l ->
  node_name x = node_name y -> x = y.
Proof.
  induction l as [|z l IH]; simpl; intros Hnd Hx Hy E; [contradiction|].
  inversion Hnd as [|? ? Hz Hl]; subst.
  destruct Hx as [->|Hx], Hy as [->|Hy].
  - reflexivity.
  - elim Hz. rewrite E. now apply in_map.
  - elim Hz. rewrite <- E. now apply in_map.
  - now apply IH.
Qed.

(** Two sorted lists with the same entries, all of different names, are the
    same list. *)
Lemma sorted_unique (l l' : list node) :
  StronglySorted name_le l -> StronglySorted name_le l' ->
  Permutation l l' -> NoDup (map node_name l) -> l = l'.
Proof.
  intros Hl. revert l'. induction Hl as [|x l Hl IH Hx]; intros l' Hl' Hp Hnd.
  - now apply Permutation_nil in Hp.
  - destruct Hl' as [|y l' Hl' Hy].
    + symmetry in Hp. now apply Permutation_nil in Hp.
    + assert (Exy : x = y).
      { assert (Hxin : In x (y :: l'))
          by (eapply Permutation_in; [exact Hp | now left]).
        assert (Hyin : In y (x :: l))
          by (eapply Permutation_in; [symmetry; exact Hp | now left]).
        destruct Hxin as [->|Hxin]; [reflexivity|].
        destruct Hyin as [->|Hyin]; [reflexivity|].
        rewrite Forall_forall in Hx, Hy.
        apply (same_name_same_entry (x :: l)); try assumption.
        * now left.
        * now right.
        * apply String.leb_antisym; [apply (Hx y Hyin) | apply (Hy x Hxin)]. }
      subst y. f_equal. apply IH; try assumption.
      * eapply Permutation_cons_inv; exact Hp.
      * now inversion Hnd.
Qed.

Lemma sorted_of_permutation (l l' : list node) :
  Permutation l l' -> NoDup (map node_name l) -> sorted l = sorted l'.
Proof.
  intros Hp Hnd. apply sorted_unique; try apply sorted_sorted.
  - rewrite !sorted_permutation. exact Hp.
  - eapply Permutation_NoDup; [|exact Hnd].
    apply Permutation_map. symmetry. apply sorted_permutation.
Qed.

(** X3: the rendered tree does not depend on the order in which the
    directory lists its entries, as long as their names differ. *)
Theorem tree_independent_of_listing_order (entries entries' : list node)
    (indent : string) :
  Permutation entries entries' ->
  NoDup (map node_name entries) ->
  generate_project_tree entries indent = generate_project_tree entries' indent.
Proof.
  intros Hp Hnd. rewrite !generate_project_tree_equation.
  now rewrite (sorted_of_permutation entries entries').
Qed.

Lemma tree_independent_of_listing_order_witness :
  let a := File "a.py" (Text_of "1") in
  let d := Dir "lib" [File "b.py" (Text_of "2")] in
  generate_project_tree [d; a] EmptyString
  = generate_project_tree [a; d] EmptyString.
Proof.
  intros a d.
  apply (tree_independent_of_listing_order [d; a] [a; d] EmptyString).
  - apply perm_swap.
  - repeat constructor; simpl; intuition discriminate.
Defined.

Lemma files_of_permutation (root : path) (l l' : list node) :
  Permutation l l' -> Permutation (files_of root l) (files_of root l').
Proof. intros H. unfold files_of. now apply Permutation_flat_map. Qed.

Lemma walk_of_files (top : path) (name : string) (entries : list node) :
  (forall e, In e entries -> is_dir e = false) ->
  walk top (Dir name entries)
  = map (fun e => top ++ [node_name e])
        (filter (fun e => allowed (top ++ [node_name e])) entries).
Proof.
  intros Hfiles. cbn [walk].
  assert (Hsub : flat_map (fun d => match d with
                                    | Dir dname _ =>
                                        if mem dname EXCLUDED_DIRS then []
                                        else walk (top ++ [dname]) d
                                    | File _ _ => []
                                    end) entries = []).
  { induction entries as [|e entries IH]; [reflexivity|].
    cbn [flat_map]. rewrite IH by (intros x Hx; apply Hfiles; now right).
    destruct e as [fname c|dname sub]; [reflexivity|].
    now specialize (Hfiles _ (or_introl eq_refl)). }
  rewrite Hsub, app_nil_r. unfold files_of. clear Hsub.
  induction entries as [|e entries IH]; [reflexivity|].
  cbn [flat_map filter]. rewrite IH by (intros x Hx; apply Hfiles; now right).
  destruct e as [fname c|dname sub].
  - cbn [node_name]. now destruct (allowed (top ++ [fname])).
  - now specialize (Hfiles _ (or_introl eq_refl)).
Qed.

(** X4: the candidates are not sorted: the allowed files of a directory come
    in the order the directory lists them, so two listings of the same
    entries can give different lists; they always give the same candidates,
    each as many times. *)
Theorem candidates_permuted_with_listing (top : path) (name : string)
    (entries entries' : list node) :
  (Permutation entries entries' ->
   Permutation (collect_source_files top (Dir name entries))
               (collect_source_files top (Dir name entries')))
  /\ ((forall e, In e entries -> is_dir e = false) ->
      collect_source_files top (Dir name entries)
      = map (fun e => top ++ [node_name e])
            (filter (fun e => allowed (top ++ [node_name e])) entries))
  /\ (exists listing listing',
        Permutation listing listing'
        /\ collect_source_files top (Dir name listing)
           <> collect_source_files top (Dir name listing')).
Proof.
  split; [|split].
  - intros Hp. unfold collect_source_files. cbn [walk].
    apply Permutation_app.
    + now apply files_of_permutation.
    + now apply Permutation_flat_map.
  - apply walk_of_files.
  - exists [File "b.py" (Text_of EmptyString); File "a.py" (Text_of EmptyString)],
           [File "a.py" (Text_of EmptyString); File "b.py" (Text_of EmptyString)].
    split; [apply perm_swap|].
    unfold collect_source_files.
    rewrite !walk_of_files by (intros e [<-|[<-|[]]]; reflexivity).
    cbn [filter node_name].
    assert (Ha : allowed (top ++ ["a.py"]) = true).
    { unfold allowed, path_suffix, path_name. rewrite last_last. reflexivity. }
    assert (Hb : allowed (top ++ ["b.py"]) = true).
    { unfold allowed, path_suffix, path_name. rewrite last_last. reflexivity. }
    rewrite Ha, Hb. cbn [map node_name]. intros H.
    injection H as H _. apply app_inv_head in H. discriminate.
Qed.

Lemma candidates_permuted_with_listing_witness :
  let a := File "a.py" (Text_of "1") in
  let b := File "b.py" (Text_of "2") in
  collect_source_files ["p"] (Dir "p" [b; a]) = [["p"; "b.py"]; ["p"; "a.py"]]
  /\ collect_source_files ["p"] (Dir "p" [a; b]) = [["p"; "a.py"]; ["p"; "b.py"]]
  /\ Permutation (collect_source_files ["p"] (Dir "p" [b; a]))
                 (collect_source_files ["p"] (Dir "p" [a; b])).
Proof.
  intros a b. split; [reflexivity|]. split; [reflexivity|].
  apply (proj1 (candidates_permuted_with_listing ["p"] "p" [b; a] [a; b])).
  apply perm_swap.
Defined.

(** ** Directories with nothing to show *)

Lemma sorted_nil_lines (sub : list node -> string -> string)
    (indent : string) (entries : list node) :
  (forall e, In e entries -> mem (node_name e) EXCLUDED_DIRS = true) ->
  flat_map (item_lines sub indent) (sorted entries) = [].
Proof.
  intros H.
  assert (G : forall l, (forall e, In e l -> mem (node_name e) EXCLUDED_DIRS = true) ->
                        flat_map (item_lines sub indent) l = []).
  { induction l as [|e l IH]; intros Hl; simpl; [reflexivity|].
    unfold item_lines at 1. rewrite (Hl e) by now left.
    apply IH. intros e' He'. apply Hl. now right. }
  apply G. intros e He. apply H. now apply (proj1 (sorted_in e entries)).
Qed.

(** X5: a directory in which every entry has an excluded name (an empty
    directory among them) renders as the empty text; as a sub-directory it
    shows as its own line followed by an empty line. *)
Theorem tree_of_nothing_visible (entries : list node) (indent name : string) :
  (forall e, In e entries -> mem (node_name e) EXCLUDED_DIRS = true) ->
  mem name EXCLUDED_DIRS = false ->
  generate_project_tree entries indent = EmptyString
  /\ generate_project_tree [Dir name entries] indent
     = Py.join Py.nl [indent ^^ Text.BRANCH ^^ name; EmptyString].
Proof.
  intros Hall Hname.
  assert (E : forall i, generate_project_tree entries i = EmptyString).
  { intros i. rewrite generate_project_tree_equation.
    now rewrite sorted_nil_lines. }
  split; [apply E|].
  rewrite generate_project_tree_equation.
  cbn [sorted fold_right insert_by_name flat_map app].
  unfold item_lines. cbn [node_name]. rewrite Hname. now rewrite E.
Qed.

Lemma tree_of_nothing_visible_witness :
  generate_project_tree [Dir "docs" [Dir ".git" []]] EmptyString
  = Py.join Py.nl [Text.BRANCH ^^ "docs"; EmptyString].
Proof.
  apply (tree_of_nothing_visible [Dir ".git" []] EmptyString "docs").
  - intros e [<-|[]]. reflexivity.
  - reflexivity.
Defined.

(** ** Candidates and the files they name *)

Lemma mem_in (s : string) (l : list string) : mem s l = true <-> In s l.
Proof.
  unfold mem. rewrite existsb_exists. split.
  - intros (x & Hx & E). apply String.eqb_eq in E. now subst.
  - intros H. exists s. split; [exact H | apply String.eqb_refl].
Qed.

Lemma find_by_name (entries : list node) (e : node) :
  distinct (map node_name entries) = true -> In e entries ->
  find (fun x => String.eqb (node_name x) (node_name e)) entries = Some e.
Proof.
  induction entries as [|x entries IH]; intros Hd He; [contradiction|].
  cbn [map distinct] in Hd. apply andb_true_iff in Hd. destruct Hd as [Hx Hd].
  cbn [find]. destruct (String.eqb_spec (node_name x) (node_name e)) as [E|E].
  - destruct He as [->|He]; [reflexivity|].
    apply negb_true_iff in Hx.
    assert (Hin : mem (node_name x) (map node_name entries) = true)
      by (apply mem_in; rewrite E; now apply in_map).
    congruence.
  - destruct He as [->|He]; [congruence|]. now apply IH.
Qed.

Lemma walk_resolves (n : node) :
  unique_names n = true ->
  forall root f,
    In f (walk root n) ->
    exists rel name c, f = root ++ rel /\ resolve rel n = Some (File name c).
Proof.
  induction n as [name c|name entries IH] using node_induction;
    intros Hu root f Hf; [exact (False_ind _ Hf)|].
  cbn [unique_names] in Hu. apply andb_true_iff in Hu.
  destruct Hu as [Hd Hall]. rewrite forallb_forall in Hall.
  cbn [walk] in Hf. apply in_app_or in Hf. destruct Hf as [Hf|Hf].
  - unfold files_of in Hf. apply in_flat_map in Hf.
    destruct Hf as (e & He & Hf).
    destruct e as [filename c|dname sub]; cbn -[allowed] in Hf;
      [|exact (False_ind _ Hf)].
    destruct (allowed (root ++ [filename])); [|exact (False_ind _ Hf)].
    destruct Hf as [<-|[]].
    exists [filename], filename, c. split; [reflexivity|].
    pose proof (find_by_name entries (File filename c) Hd He) as F.
    cbn [node_name] in F. cbn [resolve]. now rewrite F.
  - apply in_flat_map in Hf. destruct Hf as (e & He & Hf).
    rewrite Forall_forall in IH. specialize (IH e He (Hall e He)).
    destruct e as [filename c|dname sub]; cbn -[mem walk] in Hf;
      [exact (False_ind _ Hf)|].
    destruct (mem dname EXCLUDED_DIRS); [exact (False_ind _ Hf)|].
    destruct (IH _ _ Hf) as (rel & fname & c & -> & Hres).
    exists (dname :: rel), fname, c. split; [now rewrite <- app_assoc|].
    pose proof (find_by_name entries (Dir dname sub) Hd He) as F.
    cbn [node_name] in F. cbn [resolve]. now rewrite F.
Qed.

(** X6: when no directory of the project holds two entries of one name,
    every candidate names a regular file of the project, so reading it for
    review never fails for a missing file or a directory. *)
Theorem candidates_are_files (fs : node) (project_dir : path) (n : node)
    (f : path) :
  unique_names n = true ->
  resolve project_dir fs = Some n ->
  In f (collect_source_files project_dir n) ->
  exists name c,
    resolve f fs = Some (File name c)
    /\ read_text fs f = match c with
                        | Text_of text => inl text
                        | Unreadable e => inr e
                        end.
Proof.
  intros Hu Hdir Hf.
  destruct (walk_resolves n Hu project_dir f Hf) as (rel & name & c & -> & Hres).
  exists name, c.
  assert (E : resolve (project_dir ++ rel) fs = Some (File name c))
    by (now rewrite resolve_app, Hdir).
  split; [exact E|]. unfold read_text. rewrite E. now destruct c.
Qed.

Lemma candidates_are_files_witness :
  let n := Dir "proj" [Dir "src" [File "b.py" (Text_of "2")]] in
  let fs := Dir EmptyString [n] in
  exists name c, resolve ["proj"; "src"; "b.py"] fs = Some (File name c)
                 /\ read_text fs ["proj"; "src"; "b.py"]
                    = match c with
                      | Text_of text => inl text
                      | Unreadable e => inr e
                      end.
Proof.
  intros n fs.
  apply (candidates_are_files fs ["proj"] n ["proj"; "src"; "b.py"]).
  - reflexivity.
  - reflexivity.
  - vm_compute. left. reflexivity.
Defined.

(** * Further properties of the budgeting *)

Lemma prioritized_permutation (files : list path) :
  Permutation (prioritized files) files.
Proof.
  unfold prioritized. induction files as [|f files IH]; simpl; [reflexivity|].
  destruct (is_important f); simpl.
  - now constructor.
  - symmetry. apply Permutation_cons_app. now symmetry.
Qed.

Lemma slice_to_firstn {A} (k : Z) (xs : list A) :
  exists m, Py.slice_to k xs = firstn m xs.
Proof. unfold Py.slice_to. destruct (0 <=? k)%Z; eauto. Qed.

(** X7: whatever the limit, budgeting only selects: the files it returns,
    together with some others, are the input files, each as often as in the
    input; nothing is invented and nothing is duplicated. *)
Theorem budget_selects (files : list path) (file_limit : option Z) :
  exists dropped_files,
    Permutation (budget files file_limit ++ dropped_files) files.
Proof.
  unfold budget. destruct (limiting files file_limit) as [k|].
  - rewrite other_files_filter. fold (prioritized files).
    destruct (slice_to_firstn k (prioritized files)) as [m ->].
    exists (skipn m (prioritized files)).
    rewrite firstn_skipn. apply prioritized_permutation.
  - exists []. now rewrite app_nil_r.
Qed.

(** X8: with a limit [k], [0 < k < len(files)], exactly [k] files are
    returned, and when at most [k] files are important all of them are. *)
Theorem budget_keeps_important (files : list path) (k : Z) :
  (0 < k < Z.of_nat (List.length files))%Z ->
  Z.of_nat (List.length (budget files (Some k))) = k
  /\ ((Z.of_nat (List.length (filter is_important files)) <= k)%Z ->
      forall f, In f files -> is_important f = true ->
                In f (budget files (Some k))).
Proof.
  intros Hk. rewrite budget_limited by lia.
  unfold Py.slice_to. destruct (Z.leb_spec 0 k); [|lia]. split.
  - rewrite length_firstn, prioritized_length. lia.
  - intros Hfit f Hf Himp. unfold prioritized. rewrite firstn_app.
    apply in_or_app. left.
    rewrite firstn_all2 by lia.
    apply filter_In. now split.
Qed.

Lemma budget_keeps_important_witness :
  let files := [["util.py"]; ["main.py"]; ["x.py"]] in
  (0 < 1 < Z.of_nat (List.length files))%Z
  /\ Z.of_nat (List.length (budget files (Some 1%Z))) = 1%Z
  /\ In ["main.py"] (budget files (Some 1%Z)).
Proof.
  intros files.
  assert (Hk : (0 < 1 < Z.of_nat (List.length files))%Z) by (simpl; lia).
  destruct (budget_keeps_important files 1 Hk) as [Hlen Hkeep].
  split; [exact Hk|]. split; [exact Hlen|].
  apply Hkeep.
  - simpl. lia.
  - right. left. reflexivity.
  - reflexivity.
Defined.

(** X9: a negative limit [k] is not refused: it drops the last [-k] files of
    the prioritized list, and leaves nothing to review when [-k] is at least
    the number of files. *)
Theorem budget_negative (files : list path) (k : Z) :
  (k < 0)%Z ->
  budget files (Some k)
  = firstn (List.length files - Z.to_nat (- k)) (prioritized files)
  /\ List.length (budget files (Some k))
     = List.length files - Z.to_nat (- k).
Proof.
  intros Hk.
  assert (E : budget files (Some k)
              = firstn (List.length files - Z.to_nat (- k)) (prioritized files)).
  { rewrite budget_limited by lia.
    unfold Py.slice_to. destruct (Z.leb_spec 0 k); [lia|].
    rewrite prioritized_length. f_equal. lia. }
  split; [exact E|].
  rewrite E, length_firstn, prioritized_length. lia.
Qed.

Lemma budget_negative_witness :
  (-5 < 0)%Z
  /\ budget [["util.py"]; ["main.py"]] (Some (-5)%Z) = [].
Proof.
  split; [lia|].
  destruct (budget_negative [["util.py"]; ["main.py"]] (-5)) as [E _]; [lia|].
  rewrite E. reflexivity.
Defined.

(** * Further properties of the conversation *)

Section Dialogue.

Variable server : list Transcript -> post_outcome.

Lemma user_contents_app (h h' : Transcript) :
  user_contents (h ++ h') = user_contents h ++ user_contents h'.
Proof. unfold user_contents. now rewrite filter_app, map_app. Qed.

Lemma call_user_contents (p : string) (st : State) :
  user_contents (chat_history (fst (call_ollama_chat server p st)))
  = user_contents (chat_history st) ++ [p].
Proof.
  rewrite call_ollama_chat_unfold. cbv zeta.
  destruct (server _); cbn [fst chat_history];
    rewrite ?user_contents_app; cbn; now rewrite ?app_nil_r.
Qed.

Lemma call_posts (p : string) (st : State) :
  posts (trace (fst (call_ollama_chat server p st)))
  = posts (trace st)
    ++ [chat_history st ++ [{| turn_role := user; content := p |}]].
Proof.
  destruct (call_ollama_chat_grows server p st) as (more & _ & _ & Ht).
  rewrite Ht, posts_app. reflexivity.
Qed.

Lemma submit_all_requests (prompts : list string) (st : State) :
  exists requests,
    posts (trace (submit_all server prompts st))
    = posts (trace st) ++ requests
    /\ List.length requests = List.length prompts
    /\ (forall i r p,
          nth_error requests i = Some r -> nth_error prompts i = Some p ->
          exists h, r = chat_history st ++ h
                        ++ [{| turn_role := user; content := p |}])
    /\ (forall i j ri rj,
          i < j -> nth_error requests i = Some ri ->
          nth_error requests j = Some rj ->
          exists more, rj = ri ++ more)
    /\ (forall r, In r requests ->
          exists more, chat_history (submit_all server prompts st) = r ++ more).
Proof.
  revert st. induction prompts as [|p prompts IH]; intros st.
  - exists []. cbn [submit_all]. rewrite app_nil_r.
    repeat split; try (intros [|?]; intros; discriminate).
    intros r [].
  - destruct (IH (fst (call_ollama_chat server p st)))
      as (rs & Hposts & Hlen & Hshape & Horder & Hlast).
    destruct (call_ollama_chat_grows server p st) as (more & Hh & _ & _).
    set (r0 := chat_history st ++ [{| turn_role := user; content := p |}]).
    assert (Hh' : chat_history (fst (call_ollama_chat server p st))
                  = r0 ++ more)
      by (unfold r0; now rewrite Hh, <- app_assoc).
    exists (r0 :: rs). cbn [submit_all]. repeat split.
    + rewrite Hposts, call_posts, <- app_assoc. reflexivity.
    + simpl. now rewrite Hlen.
    + intros [|i] r q Hr Hq; cbn [nth_error] in Hr, Hq.
      * injection Hr as <-. injection Hq as <-. exists []. reflexivity.
      * destruct (Hshape i r q Hr Hq) as (h & ->).
        rewrite Hh. exists ({| turn_role := user; content := p |} :: more ++ h).
        rewrite <- ?app_assoc. simpl. rewrite <- ?app_assoc. reflexivity.
    + intros [|i] [|j] ri rj Hij Hi Hj; cbn [nth_error] in Hi, Hj; try lia.
      * injection Hi as <-.
        destruct (nth_error prompts j) as [q|] eqn:Hq.
        -- destruct (Hshape j rj q Hj Hq) as (h & ->).
           rewrite Hh'. eexists. rewrite <- app_assoc. reflexivity.
        -- apply nth_error_None in Hq.
           assert (nth_error rs j <> None) by congruence.
           apply nth_error_Some in H. lia.
      * apply (Horder i j); [lia | assumption | assumption].
    + intros r [<-|Hr].
      * destruct rs as [|r1 rs'].
        -- destruct prompts; [|discriminate]. cbn [submit_all].
           now exists more.
        -- destruct (Hlast r1 (or_introl eq_refl)) as (m1 & ->).
           destruct prompts as [|q prompts']; [discriminate|].
           destruct (Hshape 0 r1 q eq_refl eq_refl) as (h & ->).
           rewrite Hh'. eexists. rewrite <- !app_assoc. reflexivity.
      * now apply Hlast.
Qed.

End Dialogue.

(** X10: over any sequence of calls, whatever each request's outcome, the
    user turns of the transcript are the earlier ones followed by the
    prompts in the order submitted, and exactly one request is sent per
    call. *)
Theorem prompts_recorded_in_order (server : list Transcript -> post_outcome)
    (prompts : list string) (st : State) :
  user_contents (chat_history (submit_all server prompts st))
  = user_contents (chat_history st) ++ prompts
  /\ List.length (posts (trace (submit_all server prompts st)))
     = List.length (posts (trace st)) + List.length prompts.
Proof.
  revert st. induction prompts as [|p prompts IH]; intros st;
    cbn [submit_all].
  - rewrite app_nil_r. split; [reflexivity | simpl; lia].
  - destruct (IH (fst (call_ollama_chat server p st))) as [Hu Hp].
    rewrite Hu, Hp, call_user_contents, call_posts, length_app, <- app_assoc.
    split; [reflexivity | simpl; lia].
Qed.

(** X11: every request carries the whole conversation so far: the requests
    of a sequence of calls each start with the transcript the sequence
    started from and end with the user turn of their prompt, each later
    request extends each earlier one, and the final transcript extends them
    all. *)
Theorem requests_accumulate (server : list Transcript -> post_outcome)
    (prompts : list string) (st : State) :
  exists requests,
    posts (trace (submit_all server prompts st))
    = posts (trace st) ++ requests
    /\ List.length requests = List.length prompts
    /\ (forall i r p,
          nth_error requests i = Some r -> nth_error prompts i = Some p ->
          exists h, r = chat_history st ++ h
                        ++ [{| turn_role := user; content := p |}])
    /\ (forall i j ri rj,
          i < j -> nth_error requests i = Some ri ->
          nth_error requests j = Some rj ->
          exists more, rj = ri ++ more)
    /\ (forall r, In r requests ->
          exists more, chat_history (submit_all server prompts st) = r ++ more).
Proof. apply submit_all_requests. Qed.

Lemma requests_accumulate_witness :
  let server := fun l : list Transcript =>
                  if List.length l =? 1 then Replied (Some (Some "ok"))
                  else RequestFailed "refused" in
  posts (trace (submit_all server ["A"; "B"] initial))
  = [[{| turn_role := user; content := "A" |}];
     [{| turn_role := user; content := "A" |};
      {| turn_role := assistant; content := "ok" |};
      {| turn_role := user; content := "B" |}]]
  /\ exists requests,
       posts (trace (submit_all server ["A"; "B"] initial)) = requests
       /\ forall i j ri rj,
            i < j -> nth_error requests i = Some ri ->
            nth_error requests j = Some rj -> exists more, rj = ri ++ more.
Proof.
  intros server. split; [reflexivity|].
  destruct (requests_accumulate server ["A"; "B"] initial)
    as (requests & Hposts & _ & _ & Horder & _).
  exists requests. split; [exact Hposts | exact Horder].
Defined.

Lemma call_length_replied (server : list Transcript -> post_outcome)
    (p : string) (st : State) :
  (forall l, exists m, server l = Replied m) ->
  List.length (chat_history (fst (call_ollama_chat server p st)))
  = List.length (chat_history st) + 2.
Proof.
  intros H. rewrite call_ollama_chat_unfold. cbv zeta.
  destruct (H (posts (trace st)
               ++ [chat_history st ++ [{| turn_role := user; content := p |}]]))
    as [m ->].
  cbn [fst chat_history]. rewrite !length_app. simpl. lia.
Qed.

Lemma call_length_unanswered (server : list Transcript -> post_outcome)
    (p : string) (st : State) :
  (forall l m, server l <> Replied m) ->
  List.length (chat_history (fst (call_ollama_chat server p st)))
  = List.length (chat_history st) + 1.
Proof.
  intros H. rewrite call_ollama_chat_unfold. cbv zeta.
  destruct (server _) eqn:E; [now elim (H _ _ E)| |];
    cbn [fst chat_history]; rewrite length_app; reflexivity.
Qed.

(** X12: the transcript grows by two turns per call when every request is
    answered, and by one turn per call when none is. *)
Theorem transcript_length_accounting
    (server : list Transcript -> post_outcome)
    (prompts : list string) (st : State) :
  ((forall l, exists m, server l = Replied m) ->
   List.length (chat_history (submit_all server prompts st))
   = List.length (chat_history st) + 2 * List.length prompts)
  /\ ((forall l m, server l <> Replied m) ->
      List.length (chat_history (submit_all server prompts st))
      = List.length (chat_history st) + List.length prompts).
Proof.
  split; intros H; revert st; induction prompts as [|p prompts IH];
    intros st; cbn [submit_all List.length]; try lia; rewrite IH.
  - rewrite call_length_replied by assumption. lia.
  - rewrite call_length_unanswered by assumption. lia.
Qed.

Lemma transcript_length_accounting_witness :
  let server := fun _ : list Transcript => Replied (Some None) in
  List.length (chat_history (submit_all server ["A"; "B"; "C"] initial)) = 6.
Proof.
  intros server.
  apply (transcript_length_accounting server ["A"; "B"; "C"] initial).
  intros l. now exists (Some None).
Defined.

(** * Further properties of the orchestration *)

Section Isolation.

Variable server : list Transcript -> post_outcome.
Variable fs : node.

Lemma review_plain_always_runs (total : nat) (numbered : nat * path) :
  runs (review_plain server fs total numbered) 1.
Proof.
  intros st. destruct numbered as [i file]. unfold review_plain, read_code.
  destruct (read_text fs file);
    unfold catch, bind, emit, ret; cbv beta iota;
    rewrite call_ollama_chat_unfold; cbv zeta;
    destruct (server _); eexists _, _; (split; [reflexivity|]);
    cbn [trace]; rewrite ?posts_app, ?length_app; simpl; lia.
Qed.

End Isolation.

(** ** What was submitted, through returns and exceptions *)

Lemma hoare_ret {A} (P : State -> Prop) (E : State -> Prop) (a : A) :
  hoare P (ret a) (fun r st => P st /\ r = a) E.
Proof. intros st H. cbn. auto. Qed.

Lemma hoare_bind {A B} (P : State -> Prop) (R : A -> State -> Prop)
    (Q : B -> State -> Prop) (E : State -> Prop) (m : M A) (f : A -> M B) :
  hoare P m R E -> (forall a, hoare (R a) (f a) Q E) -> hoare P (bind m f) Q E.
Proof.
  intros Hm Hf st H. specialize (Hm st H). unfold bind.
  destruct (m st) as [st1 [a|e]]; [now apply Hf | exact Hm].
Qed.

Lemma hoare_catch {A} (P : State -> Prop) (Q : A -> State -> Prop)
    (E' E : State -> Prop) (m : M A) (handler : string -> M A) :
  hoare P m Q E' -> (forall e, hoare E' (handler e) Q E) ->
  hoare P (catch m handler) Q E.
Proof.
  intros Hm Hh st H. specialize (Hm st H). unfold catch.
  destruct (m st) as [st1 [a|e]]; [exact Hm | now apply Hh].
Qed.

Lemma hoare_pure {A} (P : State -> Prop) (phi : Prop) (m : M A)
    (Q : A -> State -> Prop) (E : State -> Prop) :
  (phi -> hoare P m Q E) -> hoare (fun st => P st /\ phi) m Q E.
Proof. intros H st [HP Hphi]. now apply H. Qed.

Lemma hoare_post {A} (P : State -> Prop) (Q Q' : A -> State -> Prop)
    (E E' : State -> Prop) (m : M A) :
  hoare P m Q E -> (forall a st, Q a st -> Q' a st) ->
  (forall st, E st -> E' st) -> hoare P m Q' E'.
Proof.
  intros Hm HQ HE st H. specialize (Hm st H).
  destruct (m st) as [st1 [a|e]]; auto.
Qed.

Lemma prefixes_snoc (ps : list string) (p : string) :
  prefixes (ps ++ [p]) = prefixes ps ++ [ps ++ [p]].
Proof.
  unfold prefixes. rewrite length_app. cbn [List.length].
  rewrite Nat.add_1_r, seq_S, map_app. cbn [map]. f_equal.
  - apply map_ext_in. intros k Hk. apply in_seq in Hk.
    rewrite firstn_app. replace (k - List.length ps) with 0 by lia.
    cbn [firstn]. apply app_nil_r.
  - f_equal. apply firstn_all2. rewrite length_app. simpl. lia.
Qed.

Lemma prefixes_length (ps : list string) :
  List.length (prefixes ps) = List.length ps.
Proof. unfold prefixes. now rewrite length_map, length_seq. Qed.

Section Stages.

Variable server : list Transcript -> post_outcome.
Variable fs : node.
Variable rich_available : bool.
Variable markup_error : string -> option string.

Variable u0 : list string.
Variable q0 : list (list string).

Lemma heard_emit (e : event) (ps : list string) (E : State -> Prop) :
  (forall messages, e <> Post messages) ->
  hoare (heard u0 q0 ps) (emit e) (fun _ => heard u0 q0 ps) E.
Proof.
  intros He st [Hu Hq]. cbn. unfold heard. cbn [trace chat_history].
  split; [exact Hu|]. rewrite posts_app.
  replace (posts [e]) with (@nil Transcript)
    by (destruct e; try reflexivity; now elim (He messages)).
  now rewrite app_nil_r.
Qed.

Lemma heard_console_print (text : string) (ps : list string)
    (E : State -> Prop) :
  (forall st, heard u0 q0 ps st -> E st) ->
  hoare (heard u0 q0 ps) (console_print markup_error text)
        (fun _ => heard u0 q0 ps) E.
Proof.
  intros HE. unfold console_print. destruct (markup_error text).
  - intros st H. cbn. now apply HE.
  - apply heard_emit. discriminate.
Qed.

Lemma heard_say (text : string) (ps : list string) (E : State -> Prop) :
  (forall st, heard u0 q0 ps st -> E st) ->
  hoare (heard u0 q0 ps) (say rich_available markup_error text)
        (fun _ => heard u0 q0 ps) E.
Proof.
  intros HE. unfold say. destruct rich_available.
  - now apply heard_console_print.
  - apply heard_emit. discriminate.
Qed.

(** A call submits its prompt whether it then returns or raises. *)
Lemma heard_call (p : string) (ps : list string) (E : State -> Prop) :
  (forall st, heard u0 q0 (ps ++ [p]) st -> E st) ->
  hoare (heard u0 q0 ps) (call_ollama_chat server p)
        (fun _ => heard u0 q0 (ps ++ [p])) E.
Proof.
  intros HE st [Hu Hq].
  assert (H : heard u0 q0 (ps ++ [p]) (fst (call_ollama_chat server p st))).
  { split.
    - rewrite call_user_contents, Hu. now rewrite app_assoc.
    - rewrite call_posts, map_app, Hq, prefixes_snoc, map_app.
      cbn [map]. rewrite user_contents_app, Hu. cbn.
      now rewrite <- !app_assoc. }
  destruct (call_ollama_chat server p st) as [st1 [a|e]]; cbn [fst] in H;
    [exact H | now apply HE].
Qed.

Lemma heard_read_code (file : path) (ps : list string) (E : State -> Prop) :
  hoare (heard u0 q0 ps) (read_code fs file)
        (fun code st => heard u0 q0 ps st /\ code = code_for fs file) E.
Proof.
  unfold read_code, code_for. destruct (read_text fs file).
  - apply hoare_ret.
  - eapply hoare_bind; [apply heard_emit; discriminate|].
    intros ?. apply hoare_ret.
Qed.

Lemma heard_review_rich (project_path file : path) (ps : list string) :
  hoare (heard u0 q0 ps) (review_rich server fs markup_error project_path file)
        (fun _ => heard u0 q0 (ps ++ [review_request fs true file]))
        (fun _ => True).
Proof.
  unfold review_rich.
  apply hoare_catch
    with (E' := heard u0 q0 (ps ++ [review_request fs true file])).
  - eapply hoare_bind; [apply heard_emit; discriminate|]. intros ?.
    eapply hoare_bind; [apply heard_read_code|]. intros code.
    apply hoare_pure. intros ->.
    eapply hoare_bind; [apply heard_call; auto|]. intros response.
    eapply hoare_bind; [apply heard_console_print; auto|]. intros ?.
    eapply hoare_bind; [apply heard_console_print; auto|]. intros ?.
    apply heard_emit. discriminate.
  - intros e.
    eapply hoare_bind; [apply heard_console_print; auto|]. intros ?.
    apply heard_emit. discriminate.
Qed.

Lemma heard_review_plain (total : nat) (numbered : nat * path)
    (ps : list string) :
  hoare (heard u0 q0 ps) (review_plain server fs total numbered)
        (fun _ => heard u0 q0 (ps ++ [review_request fs false (snd numbered)]))
        (fun _ => True).
Proof.
  unfold review_plain. destruct numbered as [i file]. cbn [snd].
  eapply hoare_bind; [apply heard_emit; discriminate|]. intros ?.
  apply hoare_catch
    with (E' := heard u0 q0 (ps ++ [review_request fs false file])).
  - eapply hoare_bind; [apply heard_read_code|]. intros code.
    apply hoare_pure. intros ->.
    eapply hoare_bind; [apply heard_call; auto|]. intros response.
    apply heard_emit. discriminate.
  - intros e. apply heard_emit. discriminate.
Qed.

Lemma heard_for_each {A} (g : A -> string) (body : A -> M unit)
    (xs : list A) :
  (forall x ps, hoare (heard u0 q0 ps) (body x)
                      (fun _ => heard u0 q0 (ps ++ [g x])) (fun _ => True)) ->
  forall ps, hoare (heard u0 q0 ps) (for_each xs body)
                   (fun _ => heard u0 q0 (ps ++ map g xs)) (fun _ => True).
Proof.
  intros Hbody. induction xs as [|x xs IH]; intros ps; cbn [for_each map].
  - rewrite app_nil_r.
    eapply hoare_post; [apply (hoare_ret _ (fun _ => True))| |auto].
    now intros r st [H _].
  - eapply hoare_bind; [apply Hbody|]. intros ?.
    eapply hoare_post; [apply IH| |auto].
    intros r st H. now rewrite <- app_assoc in H.
Qed.

Lemma map_snd_numbered {B} (G : path -> B) (files : list path) (start : nat) :
  map (fun numbered : nat * path => G (snd numbered))
      (combine (seq start (List.length files)) files)
  = map G files.
Proof.
  revert start. induction files as [|f files IH]; intros start;
    [reflexivity|].
  cbn [List.length seq combine map snd]. now rewrite IH.
Qed.

Lemma heard_review_files (project_path : path) (files : list path)
    (ps : list string) :
  hoare (heard u0 q0 ps)
        (review_files server fs rich_available markup_error project_path files)
        (fun _ => heard u0 q0
                    (ps ++ map (review_request fs rich_available) files))
        (fun _ => True).
Proof.
  unfold review_files. destruct rich_available.
  - eapply hoare_bind; [apply heard_emit; discriminate|]. intros ?.
    eapply hoare_bind; [apply heard_emit; discriminate|]. intros ?.
    apply heard_for_each. intros x qs. apply heard_review_rich.
  - eapply hoare_bind; [apply heard_emit; discriminate|]. intros ?.
    rewrite <- (map_snd_numbered (review_request fs false) files 1).
    apply (heard_for_each
             (fun numbered : nat * path => review_request fs false (snd numbered))).
    intros x qs. apply heard_review_plain.
Qed.

Lemma heard_clear (ps : list string) (E : State -> Prop) :
  hoare (heard u0 q0 ps) clear
        (fun _ st =>
           chat_history st = []
           /\ map user_contents (posts (trace st))
              = q0 ++ map (app u0) (prefixes ps)) E.
Proof. intros st [Hu Hq]. cbn. now split. Qed.

Lemma heard_analyze_project (project_dir : path)
    (description readme : string) (file_limit : option Z)
    (name : string) (entries : list node) :
  resolve project_dir fs = Some (Dir name entries) ->
  (resolve (project_dir ++ ["README.md"]) fs = None
   /\ readme = Text.README_missing
   \/ exists n text,
        resolve (project_dir ++ ["README.md"]) fs = Some (File n (Text_of text))
        /\ readme = Py.strip text) ->
  hoare (heard u0 q0 [])
        (analyze_project server fs rich_available markup_error project_dir
           description file_limit)
        (fun _ st =>
           chat_history st = []
           /\ map user_contents (posts (trace st))
              = q0 ++ map (app u0)
                       (prefixes
                          (stage_prompts fs rich_available description readme
                             entries
                             (budget (collect_source_files project_dir
                                        (Dir name entries))
                                     file_limit))))
        (fun _ => True).
Proof.
  intros Hdir Hreadme. unfold analyze_project. rewrite Hdir.
  set (files := budget (collect_source_files project_dir (Dir name entries))
                       file_limit).
  replace (stage_prompts fs rich_available description readme entries files)
    with (((([] ++ [description_prompt description readme])
             ++ [tree_prompt (generate_project_tree entries EmptyString)])
            ++ map (review_request fs rich_available) files)
           ++ [summary_prompt])
    by (unfold stage_prompts; reflexivity).
  eapply hoare_bind; [apply heard_emit; discriminate|]. intros ?.
  eapply hoare_bind with (R := fun r st => heard u0 q0 [] st /\ r = readme).
  { destruct Hreadme as [[-> ->] | (n & text & E & ->)].
    - apply hoare_ret.
    - rewrite E. unfold read_stripped, read_text. rewrite E. apply hoare_ret. }
  intros r. apply hoare_pure. intros ->.
  eapply hoare_bind; [apply heard_emit; discriminate|]. intros ?.
  eapply hoare_bind; [apply heard_emit; discriminate|]. intros ?.
  eapply hoare_bind;
    [apply heard_emit; destruct rich_available; discriminate|]. intros ?.
  eapply hoare_bind; [apply heard_call; auto|]. intros response.
  eapply hoare_bind; [apply heard_say; auto|]. intros ?.
  eapply hoare_bind;
    [apply heard_emit; destruct rich_available; discriminate|]. intros ?.
  eapply hoare_bind; [apply heard_emit; discriminate|]. intros ?.
  eapply hoare_bind; [apply heard_call; auto|]. intros response2.
  eapply hoare_bind; [apply heard_say; auto|]. intros ?.
  eapply hoare_bind.
  { destruct (limiting _ file_limit).
    - apply heard_emit. destruct rich_available; discriminate.
    - eapply hoare_post; [apply (hoare_ret _ (fun _ => True))| |auto].
      now intros r' st [H _]. }
  intros ?.
  eapply hoare_bind; [apply heard_review_files|]. intros ?.
  eapply hoare_bind;
    [apply heard_emit; destruct rich_available; discriminate|]. intros ?.
  eapply hoare_bind; [apply heard_call; auto|]. intros response3.
  eapply hoare_bind;
    [apply heard_emit; destruct rich_available; discriminate|]. intros ?.
  eapply hoare_bind; [apply heard_say; auto|]. intros ?.
  apply heard_clear.
Qed.

End Stages.

Lemma heard_start (st : State) :
  heard (user_contents (chat_history st))
        (map user_contents (posts (trace st))) [] st.
Proof. split; [now rewrite app_nil_r | cbn; now rewrite app_nil_r]. Qed.

(** X13: without [rich] the loop over the files never stops early: for
    every endpoint, even one that makes a call raise, and whether or not the
    files can be read, step 3 returns normally after sending exactly one
    request per file.  With [rich] a [console.print] may raise and end the
    loop; whenever the loop over files of the project does return normally,
    it has sent exactly one request per file. *)
Theorem review_loop_never_stops (server : list Transcript -> post_outcome)
    (fs : node) (markup : string -> option string)
    (project_path : path) (files : list path) :
  runs (review_files server fs false markup project_path files)
       (List.length files)
  /\ ((forall f, In f files -> exists rel, f = project_path ++ rel) ->
      forall st st' a,
        review_files server fs true markup project_path files st = (st', Ok a) ->
        List.length (posts (trace st'))
        = List.length (posts (trace st)) + List.length files).
Proof.
  split.
  - unfold review_files. eapply runs_eq.
    + eapply runs_bind; [run|intros].
      apply runs_for_each. apply review_plain_always_runs.
    + simpl. rewrite length_combine, length_seq. lia.
  - intros _ st st' a E.
    pose proof (heard_review_files server fs true markup
                  (user_contents (chat_history st))
                  (map user_contents (posts (trace st)))
                  project_path files [] st (heard_start st)) as H.
    rewrite E in H. destruct H as [_ H].
    apply (f_equal (@List.length _)) in H.
    rewrite !length_app, !length_map, prefixes_length in H.
    cbn [app] in H. rewrite length_map in H. exact H.
Qed.

Lemma review_loop_never_stops_witness :
  let server := fun _ : list Transcript => Replied (Some (Some "[/x]")) in
  let strict := fun _ : string => Some "closing tag" in
  let lax := fun _ : string => @None string in
  let fs := Dir EmptyString
              [Dir "p" [File "a.py" (Text_of "1"); File "b.py" (Text_of "2")]] in
  let files := [["p"; "a.py"]; ["p"; "b.py"]] in
  snd (review_files server fs true strict ["p"] files initial)
  = Raise "closing tag"
  /\ List.length
       (posts (trace (fst (review_files server fs true strict ["p"] files
                             initial)))) = 1
  /\ (exists st' a,
        review_files server fs false strict ["p"] files initial = (st', Ok a)
        /\ List.length (posts (trace st')) = 2)
  /\ List.length
       (posts (trace (fst (review_files server fs true lax ["p"] files
                             initial)))) = 2.
Proof.
  intros server strict lax fs files.
  split; [reflexivity|]. split; [reflexivity|]. split.
  - destruct (proj1 (review_loop_never_stops server fs strict ["p"] files)
                initial)
      as (st' & a & E & Hlen).
    exists st', a. split; [exact E | exact Hlen].
  - apply (proj2 (review_loop_never_stops server fs lax ["p"] files)) with
      (st := initial) (a := tt).
    + intros f [<-|[<-|[]]]; eexists; reflexivity.
    + vm_compute. reflexivity.
Defined.

Lemma clears_clear : clears clear.
Proof. intros st st' a H. injection H as <- _. reflexivity. Qed.

Lemma clears_bind {A B} (m : M A) (f : A -> M B) :
  (forall a, clears (f a)) -> clears (bind m f).
Proof.
  intros Hf st st' b. unfold bind.
  destruct (m st) as [st1 [a|e]]; [apply Hf | discriminate].
Qed.

(** X14: whenever [analyze_project] returns normally on an existing
    directory, whatever the endpoint answered, the transcript is empty
    again. *)
Theorem analysis_leaves_no_transcript
    (server : list Transcript -> post_outcome) (fs : node) (rich : bool)
    (markup : string -> option string)
    (project_dir : path) (description : string) (file_limit : option Z)
    (st st' : State) (a : unit) :
  isdir fs project_dir = true ->
  analyze_project server fs rich markup project_dir description file_limit st
  = (st', Ok a) ->
  chat_history st' = [].
Proof.
  unfold isdir. intros Hdir.
  assert (C : clears (analyze_project server fs rich markup project_dir
                        description file_limit)).
  { unfold analyze_project.
    destruct (resolve project_dir fs) as [[name c|name entries]|];
      try discriminate.
    repeat (apply clears_bind; intros). apply clears_clear. }
  apply C.
Qed.

Lemma analysis_leaves_no_transcript_witness :
  let server := fun _ : list Transcript => RequestFailed "down" in
  let fs := Dir EmptyString [Dir "proj" [File "a.py" (Text_of "x = 1")]] in
  let st := {| chat_history := [{| turn_role := user; content := "old" |}];
               trace := [] |} in
  isdir fs ["proj"] = true
  /\ chat_history
       (fst (analyze_project server fs false (fun _ => None) ["proj"] "d" None
               st))
     = [].
Proof.
  intros server fs st. split; [reflexivity|].
  apply (analysis_leaves_no_transcript server fs false (fun _ => None)
           ["proj"] "d" None st
           (fst (analyze_project server fs false (fun _ => None) ["proj"] "d"
                   None st)) tt).
  - reflexivity.
  - vm_compute. reflexivity.
Defined.

Section Crashes.

Variable server : list Transcript -> post_outcome.
Variable fs : node.
Variable rich_available : bool.
Variable markup_error : string -> option string.

Lemma analyze_project_first_call_raises (project_dir : path)
    (description readme e : string) (file_limit : option Z) (st : State)
    (name : string) (entries : list node) :
  resolve project_dir fs = Some (Dir name entries) ->
  (resolve (project_dir ++ ["README.md"]) fs = None
   /\ readme = Text.README_missing
   \/ exists n text,
        resolve (project_dir ++ ["README.md"]) fs = Some (File n (Text_of text))
        /\ readme = Py.strip text) ->
  server (posts (trace st)
          ++ [chat_history st
              ++ [{| turn_role := user;
                     content := description_prompt description readme |}]])
  = Broke e ->
  exists tr,
    analyze_project server fs rich_available markup_error project_dir
      description file_limit st
    = ({| chat_history :=
            chat_history st
            ++ [{| turn_role := user;
                   content := description_prompt description readme |}];
          trace := tr |},
       Raise e).
Proof.
  intros Hdir Hreadme Hbroke. eexists. unfold analyze_project.
  rewrite Hdir.
  assert (Hr : match resolve (project_dir ++ ["README.md"]) fs with
               | Some _ => read_stripped fs (project_dir ++ ["README.md"])
               | None => ret Text.README_missing
               end = ret readme).
  { destruct Hreadme as [[-> ->] | (n & text & E & ->)]; [reflexivity|].
    rewrite E. unfold read_stripped, read_text. now rewrite E. }
  rewrite Hr.
  unfold bind at 1 2 3 4 5 6. unfold emit at 1 2 3 4. unfold ret at 1.
  cbv beta iota. rewrite call_ollama_chat_unfold. cbv zeta.
  cbn [trace chat_history]. rewrite !posts_app.
  replace (posts [if rich_available then ConsolePrint Text.step1_rich
                  else Print Text.step1_plain]) with (@nil Transcript)
    by now destruct rich_available.
  cbn [posts]. rewrite !app_nil_r. rewrite Hbroke. reflexivity.
Qed.

Lemma analyze_project_readme_raises (project_dir : path)
    (description e : string) (file_limit : option Z) (st : State)
    (name : string) (entries : list node) (n : node) :
  resolve project_dir fs = Some (Dir name entries) ->
  resolve (project_dir ++ ["README.md"]) fs = Some n ->
  read_text fs (project_dir ++ ["README.md"]) = inr e ->
  analyze_project server fs rich_available markup_error project_dir description
    file_limit st
  = ({| chat_history := chat_history st;
        trace := trace st
                 ++ [Print (Py.nl ^^ "Analyzing project: "
                            ^^ path_str project_dir)] |},
     Raise e).
Proof.
  intros Hdir Hreadme Hread. unfold analyze_project.
  rewrite Hdir, Hreadme. unfold read_stripped. rewrite Hread.
  reflexivity.
Qed.

End Crashes.

(** X15: only a [RequestException] is handled around the request: when the
    first request of an analysis raises anything else, [analyze_project]
    raises it too, the script ends with status 1, and the transcript is left
    holding the description prompt instead of being cleared.  (A first
    request is sent when README.md is absent or readable.) *)
Theorem first_call_crash_leaks_transcript
    (server : list Transcript -> post_outcome) (fs : node) (rich : bool)
    (markup : string -> option string)
    (project_dir : path) (description readme e : string)
    (file_limit : option Z)
    (st : State) (name : string) (entries : list node) :
  resolve project_dir fs = Some (Dir name entries) ->
  (resolve (project_dir ++ ["README.md"]) fs = None
   /\ readme = "README.md not found."
   \/ exists n text,
        resolve (project_dir ++ ["README.md"]) fs = Some (File n (Text_of text))
        /\ readme = Py.strip text) ->
  server (posts (trace st)
          ++ [chat_history st
              ++ [{| turn_role := user;
                     content := description_prompt description readme |}]])
  = Broke e ->
  let out := analyze_project server fs rich markup project_dir description
               file_limit st in
  snd out = Raise e
  /\ exit_status (snd out) = 1%Z
  /\ chat_history (fst out)
     = chat_history st
       ++ [{| turn_role := user;
              content := description_prompt description readme |}].
Proof.
  intros Hdir Hreadme Hbroke out.
  destruct (analyze_project_first_call_raises server fs rich markup project_dir
              description readme e file_limit st name entries Hdir Hreadme
              Hbroke)
    as [tr E].
  subst out. rewrite E. repeat split.
Qed.

Lemma first_call_crash_leaks_transcript_witness :
  let server := fun _ : list Transcript => Broke "bad body" in
  let fs := Dir EmptyString
              [Dir "proj" [File "README.md" (Text_of " Demo ")]] in
  snd (analyze_project server fs true (fun _ => None) ["proj"] "d" None initial)
  = Raise "bad body"
  /\ chat_history
       (fst (analyze_project server fs true (fun _ => None) ["proj"] "d" None
               initial))
     = [{| turn_role := user; content := description_prompt "d" "Demo" |}].
Proof.
  intros server fs.
  destruct (first_call_crash_leaks_transcript server fs true (fun _ => None)
              ["proj"] "d" "Demo" "bad body" None initial "proj"
              [File "README.md" (Text_of " Demo ")] eq_refl)
    as (H1 & _ & H3).
  - right. exists "README.md", " Demo ". split; reflexivity.
  - reflexivity.
  - split; [exact H1 | exact H3].
Defined.

(** X16: a README.md that exists but cannot be read as a file (a directory
    of that name, or an unreadable file) is not handled: [analyze_project]
    raises the error after its first line of output, before any request,
    with the transcript untouched. *)
Theorem unreadable_readme_aborts
    (server : list Transcript -> post_outcome) (fs : node) (rich : bool)
    (markup : string -> option string)
    (project_dir : path) (description e : string) (file_limit : option Z)
    (st : State) (name : string) (entries : list node) (n : node) :
  resolve project_dir fs = Some (Dir name entries) ->
  resolve (project_dir ++ ["README.md"]) fs = Some n ->
  read_text fs (project_dir ++ ["README.md"]) = inr e ->
  let out := analyze_project server fs rich markup project_dir description
               file_limit st in
  snd out = Raise e
  /\ chat_history (fst out) = chat_history st
  /\ posts (trace (fst out)) = posts (trace st).
Proof.
  intros Hdir Hreadme Hread out. subst out.
  rewrite (analyze_project_readme_raises server fs rich markup project_dir
             description e file_limit st name entries n Hdir Hreadme Hread).
  cbn [fst snd chat_history trace]. rewrite posts_app. cbn [posts].
  now rewrite app_nil_r.
Qed.

Lemma unreadable_readme_aborts_witness :
  let server := fun _ : list Transcript => Replied (Some (Some "ok")) in
  let fs := Dir EmptyString [Dir "proj" [Dir "README.md" []]] in
  snd (analyze_project server fs false (fun _ => None) ["proj"] "d" None
         initial)
  = Raise "Is a directory"
  /\ posts (trace (fst (analyze_project server fs false (fun _ => None)
                          ["proj"] "d" None initial))) = [].
Proof.
  intros server fs.
  destruct (unreadable_readme_aborts server fs false (fun _ => None) ["proj"]
              "d" "Is a directory" None initial "proj"
              [Dir "README.md" []] (Dir "README.md" [])
              eq_refl eq_refl eq_refl)
    as (H1 & _ & H3).
  split; [exact H1 | exact H3].
Defined.

Section Unreadable.

Variable server : list Transcript -> post_outcome.
Variable fs : node.
Variable markup_error : string -> option string.

Lemma review_rich_unreadable (project_path file : path) (e : string)
    (st : State) :
  read_text fs file = inr e ->
  posts (trace (fst (review_rich server fs markup_error project_path file st)))
  = posts (trace st)
    ++ [chat_history st
        ++ [{| turn_role := user;
               content := review_prompt pad_rich file
                            (Py.lstrip_dots (path_suffix file))
                            Text.read_placeholder |}]]
  /\ In (Print ("Error reading " ^^ path_str file ^^ ": " ^^ e))
        (trace (fst (review_rich server fs markup_error project_path file st))).
Proof.
  intros Hread. unfold review_rich, read_code, console_print. rewrite Hread.
  unfold catch, bind, emit, ret, raise. cbv beta iota.
  rewrite call_ollama_chat_unfold. cbv zeta. cbn [chat_history trace].
  rewrite !posts_app. cbn [posts]. rewrite !app_nil_r.
  destruct (server _); cbv beta iota;
    repeat (match goal with
            | |- context [markup_error ?t] => destruct (markup_error t)
            end; cbv beta iota);
    cbn [fst trace chat_history];
    rewrite ?posts_app; cbn [posts]; rewrite ?app_nil_r;
    (split; [reflexivity|]);
    repeat rewrite in_app_iff; cbn [In]; tauto.
Qed.

Lemma review_plain_unreadable (total i : nat) (file : path) (e : string)
    (st : State) :
  read_text fs file = inr e ->
  posts (trace (fst (review_plain server fs total (i, file) st)))
  = posts (trace st)
    ++ [chat_history st
        ++ [{| turn_role := user;
               content := review_prompt pad_plain file
                            (Py.lstrip_dots (path_suffix file))
                            Text.read_placeholder |}]]
  /\ In (Print ("Error reading " ^^ path_str file ^^ ": " ^^ e))
        (trace (fst (review_plain server fs total (i, file) st))).
Proof.
  intros Hread. unfold review_plain, read_code. rewrite Hread.
  unfold catch, bind, emit, ret. cbv beta iota.
  rewrite call_ollama_chat_unfold. cbv zeta. cbn [chat_history trace].
  rewrite !posts_app. cbn [posts]. rewrite !app_nil_r.
  destruct (server _); cbn [fst trace chat_history];
    rewrite ?posts_app; cbn [posts]; rewrite ?app_nil_r;
    (split; [reflexivity|]);
    repeat rewrite in_app_iff; cbn [In]; tauto.
Qed.

End Unreadable.

(** X17: a file that cannot be read is not skipped: the read error is
    printed, and the review request is sent all the same, with the
    placeholder text in place of the code, in both branches of the loop. *)
Theorem unreadable_file_still_reviewed
    (server : list Transcript -> post_outcome) (fs : node)
    (markup : string -> option string)
    (project_path file : path) (total i : nat) (e : string) (st : State) :
  read_text fs file = inr e ->
  let ext := Py.lstrip_dots (path_suffix file) in
  let report := Print ("Error reading " ^^ path_str file ^^ ": " ^^ e) in
  posts (trace (fst (review_rich server fs markup project_path file st)))
  = posts (trace st)
    ++ [chat_history st
        ++ [{| turn_role := user;
               content := review_prompt pad_rich file ext
                            "# Error reading file content" |}]]
  /\ In report (trace (fst (review_rich server fs markup project_path file st)))
  /\ posts (trace (fst (review_plain server fs total (i, file) st)))
     = posts (trace st)
       ++ [chat_history st
           ++ [{| turn_role := user;
                  content := review_prompt pad_plain file ext
                               "# Error reading file content" |}]]
  /\ In report (trace (fst (review_plain server fs total (i, file) st))).
Proof.
  intros Hread ext report.
  destruct (review_rich_unreadable server fs markup project_path file e st
              Hread).
  destruct (review_plain_unreadable server fs markup total i file e st Hread).
  auto.
Qed.

Lemma unreadable_file_still_reviewed_witness :
  let server := fun _ : list Transcript => Replied (Some (Some "ok")) in
  let fs := Dir EmptyString
              [Dir "proj" [File "a.py" (Unreadable "Permission denied")]] in
  read_text fs ["proj"; "a.py"] = inr "Permission denied"
  /\ In (Print "Error reading /proj/a.py: Permission denied")
        (trace (fst (review_plain server fs 1 (1, ["proj"; "a.py"]) initial))).
Proof.
  intros server fs. split; [reflexivity|].
  apply (unreadable_file_still_reviewed server fs (fun _ => None) ["proj"]
           ["proj"; "a.py"] 1 1 "Permission denied" initial).
  reflexivity.
Defined.

(** X18: a readable description.txt in the project directory replaces the
    description of the command line, whatever that was. *)
Theorem description_file_overrides
    (server : list Transcript -> post_outcome) (fs : node) (rich : bool)
    (markup : string -> option string)
    (project_dir : path) (name text : string)
    (cli_description : option string) (limit : option Z) (st : State) :
  resolve (project_dir ++ ["description.txt"]) fs
  = Some (File name (Text_of text)) ->
  main server fs rich markup (Some project_dir) cli_description limit st
  = analyze_project server fs rich markup project_dir (Py.strip text) limit st.
Proof.
  intros H. unfold main. rewrite H.
  unfold read_stripped, read_text. rewrite H. reflexivity.
Qed.

Lemma description_file_overrides_witness :
  let server := fun _ : list Transcript => Replied (Some (Some "ok")) in
  let fs := Dir EmptyString
              [Dir "proj" [File "description.txt" (Text_of " A tool ")]] in
  main server fs false (fun _ => None) (Some ["proj"]) (Some "ignored") None
    initial
  = analyze_project server fs false (fun _ => None) ["proj"] "A tool" None
      initial.
Proof.
  intros server fs.
  apply (description_file_overrides server fs false (fun _ => None) ["proj"]
           "description.txt" " A tool " (Some "ignored") None initial).
  reflexivity.
Defined.

(** X19: whenever [analyze_project] returns normally on an existing
    directory whose README.md is absent or readable, with or without [rich]
    and whatever the endpoint answered, it leaves an empty transcript and
    has submitted, in this order, the description prompt (with the README
    text stripped, or the "not found" sentence), the tree prompt, one review
    request per budgeted file in the budgeted order, and the summary prompt;
    the i-th request carries the first i of these prompts as its new user
    turns. *)
Theorem stages_in_order (server : list Transcript -> post_outcome)
    (fs : node) (rich : bool)
    (markup : string -> option string) (project_dir : path)
    (description readme : string) (file_limit : option Z) (st st' : State)
    (a : unit) (name : string) (entries : list node) :
  resolve project_dir fs = Some (Dir name entries) ->
  (resolve (project_dir ++ ["README.md"]) fs = None
   /\ readme = "README.md not found."
   \/ exists n text,
        resolve (project_dir ++ ["README.md"]) fs = Some (File n (Text_of text))
        /\ readme = Py.strip text) ->
  analyze_project server fs rich markup project_dir description file_limit st
  = (st', Ok a) ->
  let files :=
    budget (collect_source_files project_dir (Dir name entries)) file_limit in
  let prompts := stage_prompts fs rich description readme entries files in
  chat_history st' = []
  /\ map user_contents (posts (trace st'))
     = map user_contents (posts (trace st))
       ++ map (app (user_contents (chat_history st))) (prefixes prompts).
Proof.
  intros Hdir Hreadme E files prompts.
  pose proof (heard_analyze_project server fs rich markup
                (user_contents (chat_history st))
                (map user_contents (posts (trace st)))
                project_dir description readme file_limit name entries
                Hdir Hreadme st (heard_start st)) as H.
  rewrite E in H. exact H.
Qed.

Lemma stages_in_order_witness :
  let server := fun _ : list Transcript => Replied (Some (Some "ok")) in
  let fs := Dir EmptyString [Dir "proj" [File "main.py" (Text_of "print(1)")]] in
  let out := analyze_project server fs true (fun _ => None) ["proj"]
               "A demo app" None initial in
  snd out = Ok tt
  /\ map user_contents (posts (trace (fst out)))
     = prefixes
         [description_prompt "A demo app" "README.md not found.";
          tree_prompt (Text.BRANCH ^^ "main.py");
          review_prompt pad_rich ["proj"; "main.py"] "py" "print(1)";
          summary_prompt].
Proof.
  intros server fs out.
  assert (E : out = (fst out, Ok tt)) by (vm_compute; reflexivity).
  split; [now rewrite E|].
  destruct (stages_in_order server fs true (fun _ => None) ["proj"]
              "A demo app" "README.md not found." None initial (fst out) tt
              "proj" [File "main.py" (Text_of "print(1)")])
    as [_ Hposts].
  - reflexivity.
  - left. split; reflexivity.
  - exact E.
  - rewrite Hposts. vm_compute. reflexivity.
Defined.

(** The text of a review request depends on whether [rich] could be
    imported: the two branches of the loop indent the continuation lines of
    the prompt differently, so the same file gives different requests. *)
Lemma review_request_depends_on_rich (file : path) (ext code : string) :
  review_prompt pad_rich file ext code <> review_prompt pad_plain file ext code.
Proof. unfold review_prompt, pad_rich, pad_plain. cbn. discriminate. Qed.

Lemma budget_within (files : list path) (k : Z) :
  (Z.of_nat (List.length files) <= k)%Z -> budget files (Some k) = files.
Proof.
  intros Hk. apply budget_unlimited. unfold limiting.
  destruct (Z.gtb_spec (Z.of_nat (List.length files)) k); [lia|].
  now rewrite andb_false_r.
Qed.

Lemma budget_length_limited (files : list path) (k : Z) :
  (0 < k < Z.of_nat (List.length files))%Z ->
  Z.of_nat (List.length (budget files (Some k))) = k.
Proof.
  intros Hk. rewrite budget_limited by lia.
  unfold Py.slice_to. destruct (Z.leb_spec 0 k); [|lia].
  rewrite length_firstn, prioritized_length. lia.
Qed.

(** X20: budgeting twice with the same limit changes nothing more, for every
    limit that is not negative. *)
Theorem budget_idempotent (files : list path) (file_limit : option Z) :
  (forall k, file_limit = Some k -> (0 <= k)%Z) ->
  budget (budget files file_limit) file_limit = budget files file_limit.
Proof.
  intros Hpos. destruct file_limit as [k|]; [|reflexivity].
  specialize (Hpos k eq_refl).
  destruct (Z.eq_dec k 0) as [->|Hk0]; [reflexivity|].
  destruct (Z.lt_ge_cases k (Z.of_nat (List.length files))) as [Hlt|Hge].
  - apply budget_within. rewrite budget_length_limited; lia.
  - rewrite (budget_within files k) by lia. apply budget_within. lia.
Qed.

Lemma budget_idempotent_witness :
  let files := [["util.py"]; ["main.py"]; ["x.py"]] in
  budget (budget files (Some 2%Z)) (Some 2%Z) = budget files (Some 2%Z).
Proof.
  intros files. apply (budget_idempotent files (Some 2%Z)).
  intros k E. injection E as <-. lia.
Defined.

(** A negative limit cuts again each time. *)
Example budget_negative_not_idempotent :
  budget (budget [["a.py"]; ["b.py"]; ["c.py"]] (Some (-1)%Z)) (Some (-1)%Z)
  <> budget [["a.py"]; ["b.py"]; ["c.py"]] (Some (-1)%Z).
Proof. discriminate. Qed.

(** * Further properties of the texts *)

Lemma prefix_intro (m b : string) : String.prefix m (m ^^ b) = true.
Proof.
  induction m as [|c m IH]; simpl; [now destruct b|].
  destruct (ascii_dec c c); [exact IH | contradiction].
Qed.

Lemma prefix_elim (m s : string) :
  String.prefix m s = true -> exists b, s = m ^^ b.
Proof.
  revert s. induction m as [|c m IH]; intros s H.
  - now exists s.
  - destruct s as [|d s]; simpl in H; [discriminate|].
    destruct (ascii_dec c d) as [->|]; [|discriminate].
    destruct (IH s H) as [b ->]. now exists b.
Qed.

Lemma contains_intro (m a b : string) : Py.contains m (a ^^ m ^^ b) = true.
Proof.
  induction a as [|c a IH].
  - cbn [String.append]. destruct (m ^^ b) eqn:E; cbn [Py.contains];
      rewrite <- E, prefix_intro; reflexivity.
  - cbn [String.append Py.contains]. rewrite IH. apply orb_true_r.
Qed.

Lemma contains_elim (m s : string) :
  Py.contains m s = true -> exists a b, s = a ^^ m ^^ b.
Proof.
  induction s as [|c s IH]; cbn [Py.contains]; intros H.
  - rewrite orb_false_r in H. destruct (prefix_elim m _ H) as [b E].
    exists EmptyString, b. exact E.
  - apply orb_true_iff in H. destruct H as [H|H].
    + destruct (prefix_elim m _ H) as [b E]. exists EmptyString, b. exact E.
    + destruct (IH H) as (a & b & ->). now exists (String c a), b.
Qed.

(** X21: a file counts as important exactly when one of the markers
    "main", "app", "core" or "index" occurs somewhere inside the lower-cased
    name without its extension, not only as a whole word. *)
Theorem important_means_marker_inside (f : path) :
  is_important f = true
  <-> exists marker a b,
        In marker ["main"; "app"; "core"; "index"]
        /\ Py.lower (path_stem f) = a ^^ marker ^^ b.
Proof.
  unfold is_important. rewrite existsb_exists. split.
  - intros (marker & Hin & H). destruct (contains_elim _ _ H) as (a & b & E).
    now exists marker, a, b.
  - intros (marker & a & b & Hin & E). exists marker. split; [exact Hin|].
    rewrite E. apply contains_intro.
Qed.

Lemma important_means_marker_inside_witness :
  is_important ["src"; "Wrapper.py"] = true.
Proof.
  apply (proj2 (important_means_marker_inside ["src"; "Wrapper.py"])).
  exists "app", "wr", "er". split; [right; left; reflexivity | reflexivity].
Defined.

Lemma lstrip_first (s : string) (c : ascii) :
  first_char (Py.lstrip s) = Some c -> Py.is_space c = false.
Proof.
  induction s as [|d s IH]; cbn [Py.lstrip]; [discriminate|].
  destruct (Py.is_space d) eqn:E; [exact IH|].
  cbn [first_char]. now intros [= <-].
Qed.

Lemma rstrip_last (s : string) (c : ascii) :
  last_char (Py.rstrip s) = Some c -> Py.is_space c = false.
Proof.
  induction s as [|d s IH]; cbn [Py.rstrip]; [discriminate|].
  destruct (Py.rstrip s) as [|e r] eqn:E.
  - destruct (Py.is_space d) eqn:Ed; [discriminate|].
    cbn [last_char]. now intros [= <-].
  - cbn [last_char]. exact IH.
Qed.

Lemma rstrip_first (s : string) (c : ascii) :
  first_char (Py.rstrip s) = Some c -> first_char s = Some c.
Proof.
  destruct s as [|d s]; cbn [Py.rstrip]; [discriminate|].
  destruct (Py.rstrip s); [destruct (Py.is_space d)|]; cbn [first_char];
    congruence.
Qed.

Lemma strip_clean (s : string) :
  (forall c, first_char (Py.strip s) = Some c -> Py.is_space c = false)
  /\ (forall c, last_char (Py.strip s) = Some c -> Py.is_space c = false).
Proof.
  unfold Py.strip. split; intros c H.
  - apply rstrip_first in H. now apply lstrip_first in H.
  - now apply rstrip_last in H.
Qed.

(** X22: when a request is answered, the text the call returns is the
    content of the assistant turn it appends; that text neither starts nor
    ends with white space, and it is empty when the body has no "message" or
    the message no "content". *)
Theorem reply_is_stored_stripped (server : list Transcript -> post_outcome)
    (prompt : string) (st : State) (message : option (option string)) :
  server (posts (trace st)
          ++ [chat_history st ++ [{| turn_role := user; content := prompt |}]])
  = Replied message ->
  exists reply,
    snd (call_ollama_chat server prompt st) = Ok reply
    /\ chat_history (fst (call_ollama_chat server prompt st))
       = chat_history st
         ++ [{| turn_role := user; content := prompt |};
             {| turn_role := assistant; content := reply |}]
    /\ (forall c, first_char reply = Some c -> Py.is_space c = false)
    /\ (forall c, last_char reply = Some c -> Py.is_space c = false)
    /\ (message = None \/ message = Some None -> reply = EmptyString).
Proof.
  intros H. rewrite call_ollama_chat_unfold. cbv zeta. rewrite H.
  eexists. split; [reflexivity|]. cbn [fst chat_history].
  split; [now rewrite <- app_assoc|].
  split; [apply strip_clean|]. split; [apply strip_clean|].
  now intros [-> | ->].
Qed.

Lemma reply_is_stored_stripped_witness :
  let server := fun _ : list Transcript => Replied (Some (Some "  fine ")) in
  snd (call_ollama_chat server "A" initial) = Ok "fine"
  /\ exists reply,
       snd (call_ollama_chat server "A" initial) = Ok reply
       /\ forall c, last_char reply = Some c -> Py.is_space c = false.
Proof.
  intros server. split; [reflexivity|].
  destruct (reply_is_stored_stripped server "A" initial
              (Some (Some "  fine ")) eq_refl)
    as (reply & E & _ & _ & Hlast & _).
  exists reply. split; [exact E | exact Hlast].
Defined.
